(* A shallow embedding of the bootloader screens of src/src/App.tsx (the
   config-driven Clover picker, and the older static three-theme picker that
   follows it in the same file) and of the Windows XP boot simulation of
   src/unnamed/part_000, with the properties of their keyboard navigation,
   theme list construction and timer-driven phase sequence. *)

From Stdlib Require Import ZArith List String Bool Lia.
Import ListNotations.
Open Scope string_scope.
Open Scope Z_scope.

(** * JavaScript numbers and arrays as the code uses them *)

(** A JS number that is an integer or [NaN]: [Some z] or [None].  Indices
    only ever hold integers, or [NaN] after a remainder by a zero length. *)
Definition jsnum := option Z.

Definition js_add (a b : jsnum) : jsnum :=
  match a, b with Some x, Some y => Some (x + y) | _, _ => None end.

Definition js_sub (a b : jsnum) : jsnum :=
  match a, b with Some x, Some y => Some (x - y) | _, _ => None end.

(** [a % b]: truncated remainder (sign of the dividend), [NaN] for [b = 0]. *)
Definition js_rem (a b : jsnum) : jsnum :=
  match a, b with
  | Some x, Some y => if y =? 0 then None else Some (Z.rem x y)
  | _, _ => None
  end.

(** [Object.is], as React compares effect dependencies ([NaN] is [NaN]). *)
Definition jsnum_eqb (a b : jsnum) : bool :=
  match a, b with Some x, Some y => Z.eqb x y | None, None => true | _, _ => false end.

Definition js_len {A} (l : list A) : jsnum := Some (Z.of_nat (List.length l)).

(** [arr[i]]: [undefined] ([None]) for a negative, out-of-range or [NaN]
    index. *)
Definition js_at {A} (l : list A) (i : jsnum) : option A :=
  match i with
  | Some z => if 0 <=? z then nth_error l (Z.to_nat z) else None
  | None => None
  end.

(** [arr.findIndex(p)]: the first index satisfying [p], or [-1]. *)
Fixpoint find_index {A} (p : A -> bool) (l : list A) : Z :=
  match l with
  | [] => -1
  | x :: r => if p x then 0 else
               let k := find_index p r in if k =? -1 then -1 else k + 1
  end.

(** A JS string is truthy iff it is non-empty; an absent optional field is
    [undefined], which is falsy. *)
Definition truthy (s : option string) : bool :=
  match s with Some v => negb (String.eqb v EmptyString) | None => false end.

(** * The config-driven picker (first component of src/src/App.tsx) *)
Module Clover.

Record ConfigEntry := mkEntry {
  e_id : string; e_name : string; e_icon : string;
  e_badge : option string; e_url : option string }.

Record ConfigAction := mkAction { a_id : string; a_name : string; a_icon : string }.

Inductive ThemeType := Builtin | CloverType.
Inductive Style := Classic | Modern | CloverStyle.

Record ConfigTheme := mkConfigTheme {
  ct_id : string; ct_label : string; ct_type : ThemeType;
  ct_background : string; ct_logo : option string;
  ct_entries : list ConfigEntry; ct_actions : list ConfigAction }.

Record Config := mkConfig {
  defaultTheme : string; cfg_themes : list ConfigTheme;
  cloverThemes : option (list string) }.

(** [Theme = ConfigTheme & { style }]. *)
Record Theme := mkTheme {
  t_id : string; t_label : string; t_type : ThemeType; t_style : Style;
  t_background : string; t_logo : option string;
  t_entries : list ConfigEntry; t_actions : list ConfigAction }.

Definition buildCloverTheme (themeName : string) : Theme :=
  let basePath := ("themes/" ++ themeName)%string in
  {| t_id := ("clover-" ++ themeName)%string;
     t_label := themeName;
     t_type := CloverType;
     t_style := CloverStyle;
     t_background := (basePath ++ "/background.png")%string;
     t_logo := Some (basePath ++ "/icons/logo.png")%string;
     t_entries :=
       [ mkEntry "macos" "macOS" (basePath ++ "/icons/os_mac.icns") None (Some EmptyString);
         mkEntry "windows" "Windows" (basePath ++ "/icons/os_win.icns") None (Some EmptyString) ];
     t_actions :=
       [ mkAction "shell" "UEFI Shell" (basePath ++ "/icons/tool_shell.png");
         mkAction "clover" "Clover Config" (basePath ++ "/icons/func_clover.png");
         mkAction "about" "About Clover" (basePath ++ "/icons/func_about.png");
         mkAction "options" "Options" (basePath ++ "/icons/func_options.png");
         mkAction "reset" "Reset" (basePath ++ "/icons/func_reset.png");
         mkAction "shutdown" "Shutdown" (basePath ++ "/icons/func_shutdown.png") ] |}.

Definition getThemeStyle (theme : ConfigTheme) : Style :=
  match ct_type theme with
  | CloverType => CloverStyle
  | Builtin => if String.eqb (ct_id theme) "classic" then Classic else Modern
  end.

(** [{ ...t, style: getThemeStyle(t) }] *)
Definition with_style (t : ConfigTheme) : Theme :=
  {| t_id := ct_id t; t_label := ct_label t; t_type := ct_type t;
     t_style := getThemeStyle t; t_background := ct_background t;
     t_logo := ct_logo t; t_entries := ct_entries t; t_actions := ct_actions t |}.

(** [allThemes] of the config-loading effect. *)
Definition build_themes (data : Config) : list Theme :=
  map with_style (cfg_themes data)
  ++ map buildCloverTheme (match cloverThemes data with Some l => l | None => [] end).

(** ** Component state of [App] *)

Inductive Row := Entries | Actions.

Definition row_eqb (a b : Row) : bool :=
  match a, b with Entries, Entries | Actions, Actions => true | _, _ => false end.

(** The [useState] cells of [App]; [pending_navigations] are the URLs of the
    [setTimeout] callbacks scheduled by [bootEntry] that will assign
    [window.location.href]. *)
Record AppState := mkState {
  config : option Config;
  themes : list Theme;
  themeId : string;
  selectedIndex : jsnum;
  status : string;
  activeRow : Row;
  actionIndex : jsnum;
  showOptions : bool;
  optionIndex : jsnum;
  pending_navigations : list string }.

Definition init : AppState :=
  mkState None [] "classic" (Some 0) "Loading..." Entries (Some 0) false (Some 0) [].

Definition set_config c s := mkState c (themes s) (themeId s) (selectedIndex s) (status s)
  (activeRow s) (actionIndex s) (showOptions s) (optionIndex s) (pending_navigations s).
Definition set_themes l s := mkState (config s) l (themeId s) (selectedIndex s) (status s)
  (activeRow s) (actionIndex s) (showOptions s) (optionIndex s) (pending_navigations s).
Definition set_themeId x s := mkState (config s) (themes s) x (selectedIndex s) (status s)
  (activeRow s) (actionIndex s) (showOptions s) (optionIndex s) (pending_navigations s).
Definition set_selectedIndex x s := mkState (config s) (themes s) (themeId s) x (status s)
  (activeRow s) (actionIndex s) (showOptions s) (optionIndex s) (pending_navigations s).
Definition set_status x s := mkState (config s) (themes s) (themeId s) (selectedIndex s) x
  (activeRow s) (actionIndex s) (showOptions s) (optionIndex s) (pending_navigations s).
Definition set_activeRow x s := mkState (config s) (themes s) (themeId s) (selectedIndex s)
  (status s) x (actionIndex s) (showOptions s) (optionIndex s) (pending_navigations s).
Definition set_actionIndex x s := mkState (config s) (themes s) (themeId s) (selectedIndex s)
  (status s) (activeRow s) x (showOptions s) (optionIndex s) (pending_navigations s).
Definition set_showOptions x s := mkState (config s) (themes s) (themeId s) (selectedIndex s)
  (status s) (activeRow s) (actionIndex s) x (optionIndex s) (pending_navigations s).
Definition set_optionIndex x s := mkState (config s) (themes s) (themeId s) (selectedIndex s)
  (status s) (activeRow s) (actionIndex s) (showOptions s) x (pending_navigations s).
Definition schedule_navigation url s := mkState (config s) (themes s) (themeId s)
  (selectedIndex s) (status s) (activeRow s) (actionIndex s) (showOptions s) (optionIndex s)
  (pending_navigations s ++ [url]).

(** [themes.find((item) => item.id === themeId) ?? themes[0]] *)
Definition current_theme (s : AppState) : option Theme :=
  match find (fun t => String.eqb (t_id t) (themeId s)) (themes s) with
  | Some t => Some t
  | None => hd_error (themes s)
  end.

Definition entries (s : AppState) : list ConfigEntry :=
  match current_theme s with Some t => t_entries t | None => [] end.
Definition actions (s : AppState) : list ConfigAction :=
  match current_theme s with Some t => t_actions t | None => [] end.

(** [bootEntry] *)
Definition bootEntry (entry : ConfigEntry) (s : AppState) : AppState :=
  if truthy (e_url entry) then
    schedule_navigation (match e_url entry with Some u => u | None => EmptyString end)
      (set_status ("Booting " ++ e_name entry ++ " ...") s)
  else set_status ("Boot " ++ e_name entry ++ " (no URL configured)") s.

Inductive Key := ArrowUp | ArrowDown | ArrowLeft | ArrowRight | Enter | Escape | OtherKey.

(** [themes.findIndex((t) => t.id === themeId)] *)
Definition theme_index (s : AppState) : Z :=
  find_index (fun t => String.eqb (t_id t) (themeId s)) (themes s).

Definition prev_index (cur : jsnum) (len : jsnum) : jsnum :=
  js_rem (js_add (js_sub cur (Some 1)) len) len.
Definition next_index (cur : jsnum) (len : jsnum) : jsnum :=
  js_rem (js_add cur (Some 1)) len.

(** The [keydown] listener [handleKey].  It is only registered while a theme
    is shown.  [None] is a [TypeError] thrown by the listener, which happens
    before any setter is called. *)
Definition handleKey (k : Key) (s : AppState) : option AppState :=
  match current_theme s with
  | None => Some s
  | Some _ =>
    if showOptions s then
      match k with
      | ArrowUp => Some (set_optionIndex (prev_index (optionIndex s) (js_len (themes s))) s)
      | ArrowDown => Some (set_optionIndex (next_index (optionIndex s) (js_len (themes s))) s)
      | Enter =>
          match js_at (themes s) (optionIndex s) with
          | Some t => Some (set_showOptions false (set_themeId (t_id t) s))
          | None => None
          end
      | Escape => Some (set_showOptions false s)
      | _ => Some s
      end
    else
      match k with
      | ArrowLeft =>
          Some (if row_eqb (activeRow s) Entries
                then set_selectedIndex (prev_index (selectedIndex s) (js_len (entries s))) s
                else set_actionIndex (prev_index (actionIndex s) (js_len (actions s))) s)
      | ArrowRight =>
          Some (if row_eqb (activeRow s) Entries
                then set_selectedIndex (next_index (selectedIndex s) (js_len (entries s))) s
                else set_actionIndex (next_index (actionIndex s) (js_len (actions s))) s)
      | ArrowDown =>
          let s1 := set_activeRow Actions s in
          Some (match js_at (actions s) (actionIndex s) with
                | Some a => set_status (a_name a) s1
                | None => s1
                end)
      | ArrowUp =>
          let s1 := set_activeRow Entries s in
          Some (match js_at (entries s) (selectedIndex s) with
                | Some e => set_status ("Boot " ++ e_name e) s1
                | None => s1
                end)
      | Enter =>
          Some (if row_eqb (activeRow s) Entries then
                  match js_at (entries s) (selectedIndex s) with
                  | Some e => bootEntry e s
                  | None => s
                  end
                else
                  match js_at (actions s) (actionIndex s) with
                  | Some a =>
                      if String.eqb (a_id a) "options" then
                        set_optionIndex (Some (theme_index s)) (set_showOptions true s)
                      else set_status (a_name a) s
                  | None => s
                  end)
      | _ => Some s
      end
  end.

(** Mouse events on the rendered buttons (only rendered while a theme is
    shown; the options list and overlay only while the modal is open). *)
Inductive UiEvent :=
  | Key_ (k : Key)
  | ClickEntry (i : nat) | DblClickEntry (i : nat) | ClickAction (i : nat)
  | ClickOverlay | ClickOption (i : nat).

Definition handle_event (ev : UiEvent) (s : AppState) : option AppState :=
  match current_theme s with
  | None => Some s
  | Some _ =>
    match ev with
    | Key_ k => handleKey k s
    | ClickEntry i =>
        Some (if Nat.ltb i (List.length (entries s))
              then set_selectedIndex (Some (Z.of_nat i)) (set_activeRow Entries s) else s)
    | DblClickEntry i =>
        Some (match nth_error (entries s) i with Some e => bootEntry e s | None => s end)
    | ClickAction i =>
        Some (match nth_error (actions s) i with
              | Some a =>
                  let s1 := set_status (a_name a)
                              (set_actionIndex (Some (Z.of_nat i)) (set_activeRow Actions s)) in
                  if String.eqb (a_id a) "options"
                  then set_optionIndex (Some (theme_index s)) (set_showOptions true s1)
                  else s1
              | None => s
              end)
    | ClickOverlay => Some (if showOptions s then set_showOptions false s else s)
    | ClickOption i =>
        Some (if showOptions s then
                match nth_error (themes s) i with
                | Some t => set_showOptions false (set_themeId (t_id t) s)
                | None => s
                end
              else s)
    end
  end.

(** ** Effects run after a render whose dependencies changed *)

(** The "reset selection when theme changes" effect, deps
    [[themeId, themes.length]], then the "update status" effect, deps
    [[selectedIndex, activeRow, themeId]]; both read the values of the
    render [cur], and [prev] is the previously committed render. *)
Definition run_effects (prev cur : AppState) : AppState :=
  let reset :=
    negb (String.eqb (themeId prev) (themeId cur))
    || negb (Nat.eqb (List.length (themes prev)) (List.length (themes cur))) in
  let upd :=
    negb (jsnum_eqb (selectedIndex prev) (selectedIndex cur))
    || negb (row_eqb (activeRow prev) (activeRow cur))
    || negb (String.eqb (themeId prev) (themeId cur)) in
  match current_theme cur with
  | None => cur
  | Some _ =>
    let s1 :=
      if reset then
        let s0 := set_activeRow Entries (set_actionIndex (Some 0) (set_selectedIndex (Some 0) cur)) in
        match nth_error (entries cur) 0 with
        | Some e => set_status ("Boot " ++ e_name e) s0
        | None => s0
        end
      else cur in
    if upd then
      let entry := match js_at (entries cur) (selectedIndex cur) with
                   | Some e => Some e
                   | None => nth_error (entries cur) 0
                   end in
      match entry with
      | Some e => if row_eqb (activeRow cur) Entries
                  then set_status ("Boot " ++ e_name e) s1 else s1
      | None => s1
      end
    else s1
  end.

Definition same_deps (a b : AppState) : bool :=
  String.eqb (themeId a) (themeId b)
  && Nat.eqb (List.length (themes a)) (List.length (themes b))
  && jsnum_eqb (selectedIndex a) (selectedIndex b)
  && row_eqb (activeRow a) (activeRow b).

(** Re-render and run effects until no dependency changes. *)
Fixpoint settle (fuel : nat) (prev cur : AppState) : AppState :=
  match fuel with
  | O => cur
  | S f => let r := run_effects prev cur in
           if same_deps cur r then r else settle f cur r
  end.

(** One UI event: the listener or handler runs, then React commits.  A
    thrown listener leaves the state as it was. *)
Definition step (s : AppState) (ev : UiEvent) : AppState :=
  match handle_event ev s with
  | Some s' => settle 3 s s'
  | None => s
  end.

Definition run (s : AppState) (evs : list UiEvent) : AppState := fold_left step evs s.

(** ** Loading [config.json] *)

(** Outcome of [fetch('config.json').then((res) => res.json())]: a failure
    of the request or of the JSON parse, or the parsed config. *)
Inductive FetchResult := FetchFailed | Fetched (data : Config).

(** The [.then] and [.catch] continuations of the mount effect. *)
Definition on_config (r : FetchResult) (s : AppState) : AppState :=
  match r with
  | FetchFailed => set_status "Failed to load config" s
  | Fetched data =>
      let allThemes := build_themes data in
      let defaultId := if String.eqb (defaultTheme data) EmptyString
                       then "classic" else defaultTheme data in
      let s1 := set_themeId defaultId (set_themes allThemes (set_config (Some data) s)) in
      let dflt := match find (fun t => String.eqb (t_id t) defaultId) allThemes with
                  | Some t => Some t
                  | None => hd_error allThemes
                  end in
      match dflt with
      | Some t => match nth_error (t_entries t) 0 with
                  | Some e => set_status ("Boot " ++ e_name e) s1
                  | None => s1
                  end
      | None => s1
      end
  end.

(** State once the config request has settled (the mount effects find no
    theme and do nothing; key events before this find no listener). *)
Definition loaded (r : FetchResult) : AppState := settle 3 init (on_config r init).

(** What [App] renders: the loading screen with the status line, or the
    picker for the current theme. *)
Inductive View :=
  | LoadingScreen (status_line : string)
  | PickerScreen (t : Theme) (status_line : string) (modal_open : bool).

Definition view (s : AppState) : View :=
  match current_theme s with
  | None => LoadingScreen (status s)
  | Some t => PickerScreen t (status s) (showOptions s)
  end.

End Clover.

(** * The Windows XP boot simulation ([XPBootScreen], src/unnamed/part_000) *)
Module XP.

Inductive BootPhase := Post | Bootloader | Boot | Login | LoggingIn | Desktop.

Definition phase_eqb (a b : BootPhase) : bool :=
  match a, b with
  | Post, Post | Bootloader, Bootloader | Boot, Boot | Login, Login
  | LoggingIn, LoggingIn | Desktop, Desktop => true
  | _, _ => false
  end.

Record User := mkUser { u_id : string; u_name : string; u_avatar : string }.

Definition defaultUsers : list User :=
  [ mkUser "1" "Administrator" "xp/images/user/astronaut.png";
    mkUser "2" "Guest" "xp/images/user/butterfly.png" ].

Definition bootOptions : list (string * string) :=
  [ ("start", "Start Windows XP"); ("safemode", "Safe Mode");
    ("lastknown", "Last Known Good Configuration") ].

(** The timers the component schedules: the POST memory-count interval, the
    POST drive-lines timeout and transition timeout, the bootloader countdown
    interval, the boot-animation timeout, and the [handleLogin] timeout. *)
Inductive Timer :=
  | TMemory | TAddLines | TPostTransition | TCountdown | TBootTimer
  | TLoginTimer (u : User).

(** Timers created inside a phase [useEffect] (and so cleared by its
    cleanup), as opposed to the one created by [handleLogin]. *)
Definition effect_timer (k : Timer) : bool :=
  match k with TLoginTimer _ => false | _ => true end.

(** Timers scheduled by the effects when [phase] becomes [p]. *)
Definition phase_timers (p : BootPhase) : list Timer :=
  match p with
  | Post => [TMemory; TAddLines; TPostTransition]
  | Bootloader => [TCountdown]
  | Boot => [TBootTimer]
  | _ => []
  end.

(** Calls made to the component's props. *)
Inductive Output := OnLogin (u : User) | OnExit.

(** The state cells of the component (the POST text lines and memory
    counter, which only feed the display, are left out), whether it is
    mounted, the pending timers of the page with their ids, and the calls made
    to [onLogin] / [onExit] with whether the component was mounted then. *)
Record XState := mkX {
  phase : BootPhase;
  selectedUser : option User;
  loggingInUser : option User;
  bootloaderIndex : Z;
  countdown : Z;
  mounted : bool;
  timers : list (nat * Timer);
  next_id : nat;
  outputs : list (Output * bool) }.

Definition set_phase_raw p s := mkX p (selectedUser s) (loggingInUser s) (bootloaderIndex s)
  (countdown s) (mounted s) (timers s) (next_id s) (outputs s).
Definition set_selectedUser u s := mkX (phase s) u (loggingInUser s) (bootloaderIndex s)
  (countdown s) (mounted s) (timers s) (next_id s) (outputs s).
Definition set_loggingInUser u s := mkX (phase s) (selectedUser s) u (bootloaderIndex s)
  (countdown s) (mounted s) (timers s) (next_id s) (outputs s).
Definition set_bootloaderIndex i s := mkX (phase s) (selectedUser s) (loggingInUser s) i
  (countdown s) (mounted s) (timers s) (next_id s) (outputs s).
Definition set_countdown c s := mkX (phase s) (selectedUser s) (loggingInUser s)
  (bootloaderIndex s) c (mounted s) (timers s) (next_id s) (outputs s).
Definition set_timers l s := mkX (phase s) (selectedUser s) (loggingInUser s)
  (bootloaderIndex s) (countdown s) (mounted s) l (next_id s) (outputs s).
Definition emit o s := mkX (phase s) (selectedUser s) (loggingInUser s)
  (bootloaderIndex s) (countdown s) (mounted s) (timers s) (next_id s)
  (outputs s ++ [(o, mounted s)]).
Definition unmount s := mkX (phase s) (selectedUser s) (loggingInUser s)
  (bootloaderIndex s) (countdown s) false
  (filter (fun '(_, k) => negb (effect_timer k)) (timers s)) (next_id s) (outputs s).

(** [setTimeout] / [setInterval]: a fresh id. *)
Definition schedule (k : Timer) (s : XState) : XState :=
  mkX (phase s) (selectedUser s) (loggingInUser s) (bootloaderIndex s) (countdown s)
      (mounted s) (timers s ++ [(next_id s, k)]) (S (next_id s)) (outputs s).

Definition clear (id : nat) (s : XState) : XState :=
  set_timers (filter (fun '(j, _) => negb (Nat.eqb j id)) (timers s)) s.

(** [setPhase(p)]: ignored on an unmounted component, a no-op when [p] is
    the current phase; otherwise the cleanups of the three phase effects
    clear their timers and the effects for the new phase schedule theirs. *)
Definition set_phase (p : BootPhase) (s : XState) : XState :=
  if negb (mounted s) || phase_eqb p (phase s) then s
  else fold_left (fun acc k => schedule k acc) (phase_timers p)
         (set_phase_raw p
            (set_timers (filter (fun '(_, k) => negb (effect_timer k)) (timers s)) s)).

Section WithUsers.

(** The [users] prop. *)
Variable users : list User.

Definition handleLogin (user : User) (s : XState) : XState :=
  schedule (TLoginTimer user) (set_phase LoggingIn (set_loggingInUser (Some user) s)).

Definition user_at (i : Z) : option User :=
  if 0 <=? i then nth_error users (Z.to_nat i) else None.

(** The [keydown] listener [handleKeyDown] (registered while mounted). *)
Definition handleKeyDown (k : Clover.Key) (s : XState) : XState :=
  if negb (mounted s) then s else
  match k with
  | Clover.Escape => emit OnExit s
  | _ =>
    match phase s with
    | Bootloader =>
        let n := Z.of_nat (List.length bootOptions) in
        match k with
        | Clover.ArrowUp => set_bootloaderIndex (Z.rem (bootloaderIndex s - 1 + n) n) s
        | Clover.ArrowDown => set_bootloaderIndex (Z.rem (bootloaderIndex s + 1) n) s
        | Clover.Enter => set_phase Boot s
        | _ => s
        end
    | Login =>
        let len := Z.of_nat (List.length users) in
        let currentIndex := match selectedUser s with
                            | Some u => find_index (fun v => String.eqb (u_id v) (u_id u)) users
                            | None => -1
                            end in
        match k with
        | Clover.ArrowUp =>
            set_selectedUser
              (user_at (if currentIndex <=? 0 then len - 1 else currentIndex - 1)) s
        | Clover.ArrowDown =>
            set_selectedUser
              (user_at (if currentIndex >=? len - 1 then 0 else currentIndex + 1)) s
        | Clover.Enter =>
            match selectedUser s with
            | Some u => handleLogin u s
            | None => s
            end
        | _ => s
        end
    | _ => s
    end
  end.

(** A timer callback runs.  Timeouts are removed once they fire; intervals
    stay until cleared.  The memory-count interval only feeds the display
    (and clears itself once the count is complete). *)
Definition fire (id : nat) (s : XState) : XState :=
  match find (fun '(j, _) => Nat.eqb j id) (timers s) with
  | None => s
  | Some (_, k) =>
    match k with
    | TMemory => s
    | TAddLines => clear id s
    | TPostTransition => set_phase Bootloader (clear id s)
    | TCountdown =>
        if negb (mounted s) then s
        else if countdown s <=? 1 then set_phase Boot (set_countdown 0 (clear id s))
        else set_countdown (countdown s - 1) s
    | TBootTimer => set_phase Login (clear id s)
    | TLoginTimer u => emit (OnLogin u) (set_phase Desktop (clear id s))
    end
  end.

(** [handleUserClick] *)
Definition handleUserClick (user : User) (s : XState) : XState :=
  match selectedUser s with
  | Some v => if String.eqb (u_id v) (u_id user) then handleLogin user s
              else set_selectedUser (Some user) s
  | None => set_selectedUser (Some user) s
  end.

Inductive XEvent :=
  | XKey (k : Clover.Key)
  | Fire (id : nat)
  | ClickBootOption (i : nat)
  | ClickUser (i : nat)
  | ClickExit
  | Unmount.

(** Clicks only reach the elements rendered for the current phase. *)
Definition xstep (s : XState) (e : XEvent) : XState :=
  match e with
  | XKey k => handleKeyDown k s
  | Fire id => fire id s
  | ClickBootOption i =>
      if mounted s && phase_eqb (phase s) Bootloader && Nat.ltb i (List.length bootOptions)
      then set_phase Boot (set_bootloaderIndex (Z.of_nat i) s) else s
  | ClickUser i =>
      if mounted s && (phase_eqb (phase s) Login || phase_eqb (phase s) LoggingIn) then
        match nth_error users i with
        | Some u => handleUserClick u s
        | None => s
        end
      else s
  | ClickExit => if mounted s && phase_eqb (phase s) Desktop then emit OnExit s else s
  | Unmount => unmount s
  end.

Definition xrun (s : XState) (es : list XEvent) : XState := fold_left xstep es s.

(** Mounting: initial state cells, then the POST effect schedules its timers. *)
Definition xinit : XState :=
  fold_left (fun acc k => schedule k acc) (phase_timers Post)
    (mkX Post None None 0 5 true [] O []).

Inductive reachable : XState -> Prop :=
  | reach_init : reachable xinit
  | reach_step s e : reachable s -> reachable (xstep s e).

End WithUsers.

End XP.

(** * The static three-theme picker (second component of src/src/App.tsx) *)
Module Legacy.

Record Entry := mkEntry {
  e_id : string; e_name : string; e_baseIcon : string; e_badgeIcon : option string }.
Record Action := mkAction { a_id : string; a_name : string; a_icon : string }.

Inductive ThemeId := ClassicId | ModernDark | ModernLight.
Inductive Style := Classic | Modern.

Definition themeId_eqb (a b : ThemeId) : bool :=
  match a, b with
  | ClassicId, ClassicId | ModernDark, ModernDark | ModernLight, ModernLight => true
  | _, _ => false
  end.

Record Theme := mkTheme {
  t_id : ThemeId; t_label : string; t_style : Style; t_background : string;
  t_entries : list Entry; t_actions : list Action }.

Definition actions_with (prefix : string) : list Action :=
  [ mkAction "shell" "UEFI Shell" ("/assets/" ++ prefix ++ "tool_shell.png");
    mkAction "clover" "Clover Config" ("/assets/" ++ prefix ++ "func_clover.png");
    mkAction "about" "About Clover" ("/assets/" ++ prefix ++ "func_about.png");
    mkAction "options" "Options" ("/assets/" ++ prefix ++ "func_options.png");
    mkAction "reset" "Reset" ("/assets/" ++ prefix ++ "func_reset.png");
    mkAction "shutdown" "Shutdown" ("/assets/" ++ prefix ++ "func_shutdown.png") ].

Definition themes : list Theme :=
  [ mkTheme ClassicId "Classic" Classic "/assets/bg-tonymac.png"
      [ mkEntry "hfs" "HFS" "/assets/vol_internal_hfs.png" (Some "/assets/os_lion.png");
        mkEntry "recovery" "RECOVERY" "/assets/vol_internal_hfs.png" (Some "/assets/os_winxp.png") ]
      (actions_with EmptyString);
    mkTheme ModernDark "Modern Dark" Modern "/assets/bg-modern-dark.png"
      [ mkEntry "mac" "macOS" "/assets/modern-dark-os-mac.png" None;
        mkEntry "win" "Windows" "/assets/modern-dark-os-win.png" None ]
      (actions_with "modern-dark-");
    mkTheme ModernLight "Modern Light" Modern "/assets/bg-modern-light.png"
      [ mkEntry "mac" "macOS" "/assets/modern-light-os-mac.png" None;
        mkEntry "win" "Windows" "/assets/modern-light-os-win.png" None ]
      (actions_with "modern-light-") ].

Record LState := mkL {
  themeId : ThemeId; selectedIndex : Z; status : string;
  activeRow : Clover.Row; actionIndex : Z }.

(** [themes.find((item) => item.id === themeId) ?? themes[0]] *)
Definition theme (s : LState) : Theme :=
  match find (fun t => themeId_eqb (t_id t) (themeId s)) themes with
  | Some t => t
  | None => hd (mkTheme ClassicId EmptyString Classic EmptyString [] []) themes
  end.

Definition entries s := t_entries (theme s).
Definition actions s := t_actions (theme s).

(** [moveEntries] / [moveActions]: the [setState] updater
    [(current) => (current + delta + total) % total]. *)
Definition move (current delta total : Z) : Z := Z.rem (current + delta + total) total.

Definition moveEntries (delta : Z) (s : LState) : LState :=
  mkL (themeId s) (move (selectedIndex s) delta (Z.of_nat (List.length (entries s))))
      (status s) (activeRow s) (actionIndex s).
Definition moveActions (delta : Z) (s : LState) : LState :=
  mkL (themeId s) (selectedIndex s) (status s) (activeRow s)
      (move (actionIndex s) delta (Z.of_nat (List.length (actions s)))).

Definition set_activeRow r s := mkL (themeId s) (selectedIndex s) (status s) r (actionIndex s).
Definition set_status x s := mkL (themeId s) (selectedIndex s) x (activeRow s) (actionIndex s).

Definition at_index {A} (l : list A) (i : Z) : option A :=
  if 0 <=? i then nth_error l (Z.to_nat i) else None.

(** Outcome of the listener: the state after the setters called, and whether
    it threw a [TypeError] (reading [.name] of [undefined]) on the way. *)
Inductive Outcome := Ok (s : LState) | Threw (s : LState).

Definition outcome_state (o : Outcome) : LState := match o with Ok s | Threw s => s end.

(** The [keydown] listener [handleKey] of this component. *)
Definition handleKey (k : Clover.Key) (s : LState) : Outcome :=
  match k with
  | Clover.ArrowLeft =>
      Ok (if Clover.row_eqb (activeRow s) Clover.Entries then moveEntries (-1) s
          else moveActions (-1) s)
  | Clover.ArrowRight =>
      Ok (if Clover.row_eqb (activeRow s) Clover.Entries then moveEntries 1 s
          else moveActions 1 s)
  | Clover.ArrowDown =>
      let s1 := set_activeRow Clover.Actions s in
      match at_index (actions s) (actionIndex s) with
      | Some a => Ok (set_status (a_name a) s1)
      | None => Threw s1
      end
  | Clover.ArrowUp =>
      let s1 := set_activeRow Clover.Entries s in
      match at_index (entries s) (selectedIndex s) with
      | Some e => Ok (set_status ("Boot " ++ e_name e) s1)
      | None => Threw s1
      end
  | Clover.Enter =>
      if Clover.row_eqb (activeRow s) Clover.Entries then
        match at_index (entries s) (selectedIndex s) with
        | Some e => Ok (set_status ("Booting " ++ e_name e ++ " ...") s)
        | None => Threw s
        end
      else
        match at_index (actions s) (actionIndex s) with
        | Some a => Ok (set_status (a_name a) s)
        | None => Threw s
        end
  | _ => Ok s
  end.

(** ** Clicks and effects of the static picker *)

Inductive LEvent :=
  | LKey (k : Clover.Key)
  | LClickEntry (i : nat) | LClickAction (i : nat) | LClickTheme (t : ThemeId).

Definition set_themeId x s := mkL x (selectedIndex s) (status s) (activeRow s) (actionIndex s).
Definition set_selectedIndex x s := mkL (themeId s) x (status s) (activeRow s) (actionIndex s).
Definition set_actionIndex x s := mkL (themeId s) (selectedIndex s) (status s) (activeRow s) x.

(** The [onClick] handlers of the entry, action and theme buttons. *)
Definition handle_click (ev : LEvent) (s : LState) : LState :=
  match ev with
  | LKey _ => s
  | LClickEntry i =>
      if Nat.ltb i (List.length (entries s))
      then set_selectedIndex (Z.of_nat i) (set_activeRow Clover.Entries s) else s
  | LClickAction i =>
      match nth_error (actions s) i with
      | Some a => set_status (a_name a)
                    (set_actionIndex (Z.of_nat i) (set_activeRow Clover.Actions s))
      | None => s
      end
  | LClickTheme t => set_themeId t s
  end.

(** The two effects: reset on [[themeId]], status on
    [[selectedIndex, activeRow, themeId]], reading the render [cur].  (The
    status effect reads [entry.name] of [entries[0]] at worst, which exists:
    every theme of the list has two entries.) *)
Definition run_effects (prev cur : LState) : LState :=
  let reset := negb (themeId_eqb (themeId prev) (themeId cur)) in
  let upd := negb (selectedIndex prev =? selectedIndex cur)
             || negb (Clover.row_eqb (activeRow prev) (activeRow cur))
             || negb (themeId_eqb (themeId prev) (themeId cur)) in
  let s1 :=
    if reset then
      let s0 := set_activeRow Clover.Entries
                  (set_actionIndex 0 (set_selectedIndex 0 cur)) in
      match nth_error (entries cur) 0 with
      | Some e => set_status ("Boot " ++ e_name e) s0
      | None => s0
      end
    else cur in
  if upd then
    match (match at_index (entries cur) (selectedIndex cur) with
           | Some e => Some e
           | None => nth_error (entries cur) 0
           end) with
    | Some e => if Clover.row_eqb (activeRow cur) Clover.Entries
                then set_status ("Boot " ++ e_name e) s1 else s1
    | None => s1
    end
  else s1.

Definition same_deps (a b : LState) : bool :=
  themeId_eqb (themeId a) (themeId b) && (selectedIndex a =? selectedIndex b)
  && Clover.row_eqb (activeRow a) (activeRow b).

Fixpoint settle (fuel : nat) (prev cur : LState) : LState :=
  match fuel with
  | O => cur
  | S f => let r := run_effects prev cur in
           if same_deps cur r then r else settle f cur r
  end.

(** A key press (setters called before a throw still apply) or a click,
    then the commit. *)
Definition lstep (s : LState) (ev : LEvent) : LState :=
  let s' := match ev with
            | LKey k => outcome_state (handleKey k s)
            | _ => handle_click ev s
            end in
  settle 3 s s'.

Definition lrun (s : LState) (evs : list LEvent) : LState := fold_left lstep evs s.

(** Initial state cells (the mount effects leave them as they are). *)
Definition linit : LState := mkL ClassicId 0 "Boot HFS" Clover.Entries 0.

Definition threw (o : Outcome) : bool := match o with Ok _ => false | Threw _ => true end.

End Legacy.

(** * Observations used by the properties *)

Module Observe.

(** Rank of a phase in [post < bootloader < boot < login < logging-in <
    desktop]. *)
Definition phase_rank (p : XP.BootPhase) : Z :=
  match p with
  | XP.Post => 0 | XP.Bootloader => 1 | XP.Boot => 2
  | XP.Login => 3 | XP.LoggingIn => 4 | XP.Desktop => 5
  end.

(** Every pending timer created by a phase effect belongs to the effects of
    the current phase of a mounted component. *)
Definition timers_inv (s : XP.XState) : Prop :=
  forall id k, In (id, k) (XP.timers s) -> XP.effect_timer k = true ->
  XP.mounted s = true /\ In k (XP.phase_timers (XP.phase s)).

(** The index and length of a row of the static picker. *)
Definition row_index (r : Clover.Row) (s : Legacy.LState) : Z :=
  if Clover.row_eqb r Clover.Entries then Legacy.selectedIndex s else Legacy.actionIndex s.
Definition row_length (r : Clover.Row) (s : Legacy.LState) : Z :=
  Z.of_nat (if Clover.row_eqb r Clover.Entries
            then List.length (Legacy.entries s) else List.length (Legacy.actions s)).

(** The [(index, length, key) -> newIndex] function of the static picker. *)
Definition index_update (index len : Z) (k : Clover.Key) : Z :=
  match k with
  | Clover.ArrowLeft => Legacy.move index (-1) len
  | Clover.ArrowRight => Legacy.move index 1 len
  | _ => index
  end.

(** The same for a row of the config-driven picker with the modal closed. *)
Definition app_row_index (r : Clover.Row) (s : Clover.AppState) : jsnum :=
  if Clover.row_eqb r Clover.Entries then Clover.selectedIndex s else Clover.actionIndex s.
Definition app_row_length (r : Clover.Row) (s : Clover.AppState) : jsnum :=
  if Clover.row_eqb r Clover.Entries then js_len (Clover.entries s) else js_len (Clover.actions s).
Definition app_index_update (index len : jsnum) (k : Clover.Key) : jsnum :=
  match k with
  | Clover.ArrowLeft => Clover.prev_index index len
  | Clover.ArrowRight => Clover.next_index index len
  | _ => index
  end.

(** Range predicates for the config-driven picker. *)
Definition idx_in (i : jsnum) (n : nat) : Prop :=
  exists z, i = Some z /\ 0 <= z < Z.of_nat n.

Definition rows_nonempty (ts : list Clover.Theme) : Prop :=
  Forall (fun t => Clover.t_entries t <> [] /\ Clover.t_actions t <> []) ts.

Definition rows_ok (s : Clover.AppState) : Prop :=
  idx_in (Clover.selectedIndex s) (List.length (Clover.entries s)) /\
  idx_in (Clover.actionIndex s) (List.length (Clover.actions s)).

Definition option_ok (s : Clover.AppState) : Prop :=
  In (Clover.themeId s) (map Clover.t_id (Clover.themes s)) /\
  idx_in (Clover.optionIndex s) (List.length (Clover.themes s)).

(** [data.defaultTheme || 'classic'] *)
Definition default_id (data : Clover.Config) : string :=
  if String.eqb (Clover.defaultTheme data) EmptyString then "classic"
  else Clover.defaultTheme data.

(** Timer ids of the XP screen: every pending id was handed out before
    [next_id]; [timers_grow s s'] says that [s'] keeps or drops the timers of
    [s] and only adds timers with ids handed out in between. *)
Definition ids_fresh (s : XP.XState) : Prop :=
  forall j k, In (j, k) (XP.timers s) -> (j < XP.next_id s)%nat.

Definition timers_grow (s s' : XP.XState) : Prop :=
  (XP.next_id s <= XP.next_id s')%nat /\
  forall j k, In (j, k) (XP.timers s') ->
    In (j, k) (XP.timers s) \/ (XP.next_id s <= j < XP.next_id s')%nat.

(** Sample configurations. *)
Definition sample_theme : Clover.ConfigTheme :=
  Clover.mkConfigTheme "classic" "Classic" Clover.Builtin "assets/bg-tonymac.png" None
    [ Clover.mkEntry "hfs" "HFS" "assets/vol_internal_hfs.png" None (Some "https://example.org/");
      Clover.mkEntry "win" "Windows" "assets/os_win.png" None None ]
    [ Clover.mkAction "shell" "UEFI Shell" "assets/tool_shell.png";
      Clover.mkAction "options" "Options" "assets/func_options.png" ].

Definition sample_config : Clover.Config :=
  Clover.mkConfig "classic" [sample_theme] (Some ["BGM"]).

(** A config whose [defaultTheme] names no theme of the list. *)
Definition sample_config_unknown_default : Clover.Config :=
  Clover.mkConfig "dark" [sample_theme] None.

End Observe.

(** * Properties *)

Import Clover.

(** [settle] after a render that changed no dependency leaves the state as it
    is. *)
Lemma same_deps_refl (s : AppState) : same_deps s s = true.
Proof.
  unfold same_deps, jsnum_eqb.
  rewrite String.eqb_refl, Nat.eqb_refl.
  destruct (selectedIndex s); [rewrite Z.eqb_refl|]; destruct (activeRow s); reflexivity.
Qed.

Lemma run_effects_same (prev cur : AppState) :
  same_deps prev cur = true -> run_effects prev cur = cur.
Proof.
  unfold same_deps, run_effects.
  intros H. repeat rewrite andb_true_iff in H. destruct H as [[[H1 H2] H3] H4].
  rewrite H1, H2, H3, H4. simpl. destruct (current_theme cur); reflexivity.
Qed.

Lemma settle_same (n : nat) (prev cur : AppState) :
  same_deps prev cur = true -> settle (S n) prev cur = cur.
Proof.
  intros H. simpl. rewrite (run_effects_same _ _ H), same_deps_refl. reflexivity.
Qed.

Lemma same_deps_status (x : string) (s : AppState) : same_deps s (set_status x s) = true.
Proof. change (same_deps s s = true). apply same_deps_refl. Qed.

Lemma current_theme_status (x : string) (s : AppState) :
  current_theme (set_status x s) = current_theme s.
Proof. reflexivity. Qed.

(** ** C7: the theme list built from a loaded config *)

(** C7. The built list is the config's themes, each with all its fields and
    the style [clover] when its type is [clover], [classic] when its id is
    [classic], [modern] otherwise, followed by one synthesized theme per name
    of [cloverThemes] (none when it is absent), in order, with id
    ["clover-" ++ name], label [name], entries macOS and Windows and six
    actions. *)
Theorem build_themes_shape (data : Config) :
  let clover := match cloverThemes data with Some l => l | None => [] end in
  List.length (build_themes data) = (List.length (cfg_themes data) + List.length clover)%nat /\
  (forall i t, nth_error (cfg_themes data) i = Some t ->
     nth_error (build_themes data) i =
       Some (mkTheme (ct_id t) (ct_label t) (ct_type t)
               (match ct_type t with
                | CloverType => CloverStyle
                | Builtin => if String.eqb (ct_id t) "classic" then Classic else Modern
                end)
               (ct_background t) (ct_logo t) (ct_entries t) (ct_actions t))) /\
  (forall j name, nth_error clover j = Some name ->
     exists th, nth_error (build_themes data) (List.length (cfg_themes data) + j)%nat = Some th
       /\ t_id th = "clover-" ++ name /\ t_label th = name /\ t_type th = CloverType
       /\ map e_name (t_entries th) = ["macOS"; "Windows"]
       /\ List.length (t_actions th) = 6%nat).
Proof.
  intros clover. unfold build_themes. fold clover. split; [|split].
  - rewrite length_app, !length_map. reflexivity.
  - intros i t H.
    rewrite nth_error_app1.
    + rewrite nth_error_map, H. reflexivity.
    + rewrite length_map. apply nth_error_Some. congruence.
  - intros j name H.
    rewrite nth_error_app2 by (rewrite length_map; lia).
    rewrite length_map, Nat.add_comm, Nat.add_sub, nth_error_map, H.
    eexists. split; [reflexivity|]. simpl. repeat split.
Qed.

(** ** C10: the synthesized entries have no URL *)

Lemma step_status (s : AppState) (ev : UiEvent) (x : string) :
  handle_event ev s = Some (set_status x s) -> step s ev = set_status x s.
Proof.
  intros H. unfold step. rewrite H. apply settle_same, same_deps_status.
Qed.

Lemma clover_entry_url (name : string) (i : nat) (e : ConfigEntry) :
  nth_error (t_entries (buildCloverTheme name)) i = Some e ->
  e_url e = Some EmptyString /\
  (i = 0%nat /\ e_name e = "macOS" \/ i = 1%nat /\ e_name e = "Windows").
Proof.
  destruct i as [|[|i]]; simpl; intros H; inversion H; subst; simpl; auto.
  destruct i; discriminate.
Qed.

(** C10. An entry of a theme built by [buildCloverTheme] has the empty URL,
    so [bootEntry] takes its no-URL branch: the status becomes
    ["Boot <name> (no URL configured)"], nothing else changes and no
    navigation is scheduled; the same holds for a double click on the entry
    and for Enter on the selected entry. *)
Theorem clover_entry_boot_no_url (name : string) (i : nat) (e : ConfigEntry) (s : AppState)
  (Hth : current_theme s = Some (buildCloverTheme name))
  (He : nth_error (t_entries (buildCloverTheme name)) i = Some e) :
  let st := set_status ("Boot " ++ e_name e ++ " (no URL configured)") s in
  e_url e = Some EmptyString /\ bootEntry e s = st /\
  pending_navigations st = pending_navigations s /\
  step s (DblClickEntry i) = st /\
  (showOptions s = false -> activeRow s = Entries -> selectedIndex s = Some (Z.of_nat i) ->
   step s (Key_ Enter) = st).
Proof.
  intros st. destruct (clover_entry_url _ _ _ He) as [Hurl _].
  assert (Hb : bootEntry e s = st).
  { unfold bootEntry, st. rewrite Hurl. reflexivity. }
  assert (Hent : entries s = t_entries (buildCloverTheme name)).
  { unfold entries. rewrite Hth. reflexivity. }
  split; [exact Hurl|]. split; [exact Hb|]. split; [reflexivity|]. split.
  - apply step_status. unfold handle_event. rewrite Hth, Hent, He, Hb. reflexivity.
  - intros Hopt Hrow Hsel. apply step_status.
    unfold handle_event, handleKey. rewrite Hth, Hopt, Hrow, Hsel. simpl.
    rewrite Hent. unfold js_at.
    replace (0 <=? Z.of_nat i) with true by (symmetry; apply Z.leb_le; lia).
    rewrite Nat2Z.id, He, Hb. reflexivity.
Qed.

(** ** C6: a failed config request *)

Lemma loaded_failed :
  loaded FetchFailed =
  mkState None [] "classic" (Some 0) "Failed to load config" Entries (Some 0) false (Some 0) [].
Proof. reflexivity. Qed.

Lemma step_no_theme (s : AppState) (ev : UiEvent) :
  current_theme s = None -> step s ev = s.
Proof.
  intros H. unfold step, handle_event. rewrite H.
  apply settle_same, same_deps_refl.
Qed.

(** C6. When fetching or parsing [config.json] fails, the status becomes
    ["Failed to load config"], the theme list stays empty and the loading
    screen shows that status; whatever keys and clicks follow, nothing of
    this changes (no retry, no theme is ever shown). *)
Theorem config_failure_static (evs : list UiEvent) :
  let s := run (loaded FetchFailed) evs in
  s = loaded FetchFailed /\ status s = "Failed to load config" /\ themes s = [] /\
  current_theme s = None /\ view s = LoadingScreen "Failed to load config".
Proof.
  intros s.
  assert (Hs : s = loaded FetchFailed).
  { unfold s, run. induction evs as [|ev evs IH] using rev_ind; [reflexivity|].
    rewrite fold_left_app. simpl. rewrite IH.
    apply step_no_theme. reflexivity. }
  rewrite Hs, loaded_failed. repeat split.
Qed.

(** ** C1: circular navigation *)

Lemma prev_index_wrap (i n : Z) :
  0 < n -> 0 <= i < n -> prev_index (Some i) (Some n) = Some ((i - 1 + n) mod n).
Proof.
  intros Hn Hi. unfold prev_index, js_rem, js_add, js_sub.
  replace (n =? 0) with false by (symmetry; apply Z.eqb_neq; lia).
  rewrite Z.rem_mod_nonneg by lia. reflexivity.
Qed.

Lemma next_index_wrap (i n : Z) :
  0 < n -> 0 <= i < n -> next_index (Some i) (Some n) = Some ((i + 1) mod n).
Proof.
  intros Hn Hi. unfold next_index, js_rem, js_add.
  replace (n =? 0) with false by (symmetry; apply Z.eqb_neq; lia).
  rewrite Z.rem_mod_nonneg by lia. reflexivity.
Qed.

Lemma theme_of_themes (s : AppState) :
  themes s <> [] -> exists t, current_theme s = Some t.
Proof.
  unfold current_theme. destruct (find _ _); [eauto|].
  destruct (themes s); [congruence|]. simpl. eauto.
Qed.

Lemma theme_of_entries (s : AppState) :
  List.length (entries s) <> 0%nat -> exists t, current_theme s = Some t.
Proof. unfold entries. destruct (current_theme s); [eauto|]. simpl. congruence. Qed.

Lemma theme_of_actions (s : AppState) :
  List.length (actions s) <> 0%nat -> exists t, current_theme s = Some t.
Proof. unfold actions. destruct (current_theme s); [eauto|]. simpl. congruence. Qed.

Lemma xp_bootloader_wrap (users : list XP.User) (x : XP.XState) (i : Z) :
  XP.mounted x = true -> XP.phase x = XP.Bootloader -> XP.bootloaderIndex x = i ->
  XP.handleKeyDown users ArrowUp x = XP.set_bootloaderIndex (Z.rem (i - 1 + 3) 3) x /\
  XP.handleKeyDown users ArrowDown x = XP.set_bootloaderIndex (Z.rem (i + 1) 3) x.
Proof.
  intros Hm Hp Hi. unfold XP.handleKeyDown. rewrite Hm, Hp, Hi. split; reflexivity.
Qed.

(** C1. For a row of length [n > 0] and an index [0 <= i < n], the key
    towards the previous item sets the index to [(i - 1 + n) mod n] and the
    key towards the next item to [(i + 1) mod n]: Left/Right on the entries
    row and on the actions row, Up/Down in the options modal, and Up/Down in
    the XP bootloader menu (three options). *)
Theorem arrow_wraparound (i n : Z) (Hn : 0 < n) (Hi : 0 <= i < n) :
  (forall s, showOptions s = false -> activeRow s = Entries -> selectedIndex s = Some i ->
     Z.of_nat (List.length (entries s)) = n ->
     handleKey ArrowLeft s = Some (set_selectedIndex (Some ((i - 1 + n) mod n)) s) /\
     handleKey ArrowRight s = Some (set_selectedIndex (Some ((i + 1) mod n)) s)) /\
  (forall s, showOptions s = false -> activeRow s = Actions -> actionIndex s = Some i ->
     Z.of_nat (List.length (actions s)) = n ->
     handleKey ArrowLeft s = Some (set_actionIndex (Some ((i - 1 + n) mod n)) s) /\
     handleKey ArrowRight s = Some (set_actionIndex (Some ((i + 1) mod n)) s)) /\
  (forall s, showOptions s = true -> optionIndex s = Some i ->
     Z.of_nat (List.length (themes s)) = n ->
     handleKey ArrowUp s = Some (set_optionIndex (Some ((i - 1 + n) mod n)) s) /\
     handleKey ArrowDown s = Some (set_optionIndex (Some ((i + 1) mod n)) s)) /\
  (forall users x, XP.mounted x = true -> XP.phase x = XP.Bootloader ->
     XP.bootloaderIndex x = i -> n = Z.of_nat (List.length XP.bootOptions) ->
     XP.handleKeyDown users ArrowUp x = XP.set_bootloaderIndex ((i - 1 + n) mod n) x /\
     XP.handleKeyDown users ArrowDown x = XP.set_bootloaderIndex ((i + 1) mod n) x).
Proof.
  split; [|split; [|split]].
  - intros s Ho Hr Hs Hl.
    destruct (theme_of_entries s) as [t Ht]; [lia|].
    unfold handleKey. rewrite Ht, Ho, Hr, Hs. simpl. unfold js_len. rewrite Hl.
    rewrite prev_index_wrap, next_index_wrap by lia. split; reflexivity.
  - intros s Ho Hr Hs Hl.
    destruct (theme_of_actions s) as [t Ht]; [lia|].
    unfold handleKey. rewrite Ht, Ho, Hr, Hs. simpl. unfold js_len. rewrite Hl.
    rewrite prev_index_wrap, next_index_wrap by lia. split; reflexivity.
  - intros s Ho Hs Hl.
    destruct (theme_of_themes s) as [t Ht].
    { intros E. rewrite E in Hl. simpl in Hl. lia. }
    unfold handleKey. rewrite Ht, Ho, Hs. unfold js_len. rewrite Hl.
    rewrite prev_index_wrap, next_index_wrap by lia. split; reflexivity.
  - intros users x Hm Hp Hx Hl. simpl in Hl. subst n.
    destruct (xp_bootloader_wrap users x i Hm Hp Hx) as [H1 H2].
    rewrite H1, H2, !Z.rem_mod_nonneg by lia. split; reflexivity.
Qed.

Lemma arrow_wraparound_witness :
  let s := loaded (Fetched Observe.sample_config) in
  handleKey ArrowLeft s = Some (set_selectedIndex (Some 1) s) /\
  handleKey ArrowRight s = Some (set_selectedIndex (Some 1) s).
Proof.
  intros s.
  exact (proj1 (arrow_wraparound 0 2 ltac:(lia) ltac:(lia)) s eq_refl eq_refl eq_refl eq_refl).
Defined.

(** ** C2: which keys change the active row *)

(** C2, counterexample: on the loaded sample config the entries row is
    active and ArrowDown makes the actions row active. *)
Lemma arrow_down_switches_row :
  let s := loaded (Fetched Observe.sample_config) in
  activeRow s = Entries /\
  exists s', handleKey ArrowDown s = Some s' /\ activeRow s' = Actions.
Proof.
  intros s. split; [reflexivity|]. eexists. split; reflexivity.
Qed.

Lemma legacy_move_left (i n : Z) :
  0 < n -> 0 <= i < n -> Legacy.move i (-1) n = (i - 1 + n) mod n.
Proof.
  intros Hn Hi. unfold Legacy.move. rewrite Z.rem_mod_nonneg by lia. f_equal; lia.
Qed.

Lemma legacy_move_right (i n : Z) :
  0 < n -> 0 <= i < n -> Legacy.move i 1 n = (i + 1) mod n.
Proof.
  intros Hn Hi. unfold Legacy.move. rewrite Z.rem_mod_nonneg by lia.
  replace (i + 1 + n) with (i + 1 + 1 * n) by lia. apply Z.mod_add. lia.
Qed.

(** C2, amended.  With the options modal closed, Left/Right move the index
    of the active row ([index_update]: [(i - 1 + n) % n], [(i + 1) % n], which
    is the wraparound [(i - 1 + n) mod n], [(i + 1) mod n] for an index in
    range), keep the active row and leave the other row's index alone; Down
    makes the actions row active and Up the entries row, moving neither
    index.  With the options modal open, Left/Right do nothing and Up/Down
    only move the option index.  The static picker (which has no modal)
    behaves the same way. *)
Theorem arrow_keys_rows (s : AppState) (ls : Legacy.LState)
  (Ht : current_theme s <> None) :
  (showOptions s = false ->
    (forall k, k = ArrowLeft \/ k = ArrowRight ->
       exists s', handleKey k s = Some s' /\ activeRow s' = activeRow s /\
         showOptions s' = false /\ optionIndex s' = optionIndex s /\
         (if row_eqb (activeRow s) Entries then actionIndex s' = actionIndex s
          else selectedIndex s' = selectedIndex s) /\
         Observe.app_row_index (activeRow s) s' =
           Observe.app_index_update (Observe.app_row_index (activeRow s) s)
                                    (Observe.app_row_length (activeRow s) s) k /\
         (forall z n, Observe.app_row_index (activeRow s) s = Some z ->
            Observe.app_row_length (activeRow s) s = Some n -> 0 <= z < n ->
            Observe.app_row_index (activeRow s) s' =
              Some (match k with ArrowLeft => (z - 1 + n) mod n | _ => (z + 1) mod n end))) /\
    (exists s', handleKey ArrowDown s = Some s' /\ activeRow s' = Actions /\
       selectedIndex s' = selectedIndex s /\ actionIndex s' = actionIndex s) /\
    (exists s', handleKey ArrowUp s = Some s' /\ activeRow s' = Entries /\
       selectedIndex s' = selectedIndex s /\ actionIndex s' = actionIndex s)) /\
  (showOptions s = true ->
    handleKey ArrowLeft s = Some s /\ handleKey ArrowRight s = Some s /\
    handleKey ArrowUp s =
      Some (set_optionIndex (prev_index (optionIndex s) (js_len (themes s))) s) /\
    handleKey ArrowDown s =
      Some (set_optionIndex (next_index (optionIndex s) (js_len (themes s))) s)) /\
  (forall k, k = ArrowLeft \/ k = ArrowRight ->
     let r := Legacy.outcome_state (Legacy.handleKey k ls) in
     Legacy.activeRow r = Legacy.activeRow ls /\
     (if row_eqb (Legacy.activeRow ls) Entries then Legacy.actionIndex r = Legacy.actionIndex ls
      else Legacy.selectedIndex r = Legacy.selectedIndex ls) /\
     Observe.row_index (Legacy.activeRow ls) r =
       Observe.index_update (Observe.row_index (Legacy.activeRow ls) ls)
                            (Observe.row_length (Legacy.activeRow ls) ls) k /\
     (0 <= Observe.row_index (Legacy.activeRow ls) ls < Observe.row_length (Legacy.activeRow ls) ls ->
      Observe.row_index (Legacy.activeRow ls) r =
        match k with
        | ArrowLeft => (Observe.row_index (Legacy.activeRow ls) ls - 1
                        + Observe.row_length (Legacy.activeRow ls) ls)
                       mod Observe.row_length (Legacy.activeRow ls) ls
        | _ => (Observe.row_index (Legacy.activeRow ls) ls + 1)
               mod Observe.row_length (Legacy.activeRow ls) ls
        end)) /\
  (let r := Legacy.outcome_state (Legacy.handleKey ArrowDown ls) in
   Legacy.activeRow r = Actions /\ Legacy.selectedIndex r = Legacy.selectedIndex ls /\
   Legacy.actionIndex r = Legacy.actionIndex ls) /\
  (let r := Legacy.outcome_state (Legacy.handleKey ArrowUp ls) in
   Legacy.activeRow r = Entries /\ Legacy.selectedIndex r = Legacy.selectedIndex ls /\
   Legacy.actionIndex r = Legacy.actionIndex ls).
Proof.
  destruct (current_theme s) as [t|] eqn:Hth; [clear Ht|congruence].
  split; [|split; [|split; [|split]]].
  - intros Ho. unfold handleKey. rewrite Hth, Ho. split; [|split].
    + intros k Hk. destruct Hk as [-> | ->]; eexists; (split; [reflexivity|]);
        unfold Observe.app_row_index, Observe.app_row_length, Observe.app_index_update;
        destruct (activeRow s) eqn:Hr;
        cbn [row_eqb set_selectedIndex set_actionIndex activeRow showOptions optionIndex
             actionIndex selectedIndex];
        rewrite ?Hr, ?Ho; cbn [row_eqb];
        (repeat split);
        intros z n Hz Hn Hb; rewrite Hz, Hn;
        first [apply prev_index_wrap | apply next_index_wrap]; lia.
    + destruct (js_at (actions s) (actionIndex s)); eexists; repeat split.
    + destruct (js_at (entries s) (selectedIndex s)); eexists; repeat split.
  - intros Ho. unfold handleKey. rewrite Hth, Ho. repeat split.
  - intros k Hk. destruct Hk as [-> | ->]; cbv zeta;
      unfold Legacy.handleKey, Observe.row_index, Observe.row_length, Observe.index_update;
      destruct (Legacy.activeRow ls) eqn:Hr;
      cbn [row_eqb Legacy.outcome_state Legacy.moveEntries Legacy.moveActions
           Legacy.activeRow Legacy.selectedIndex Legacy.actionIndex];
      rewrite ?Hr; cbn [row_eqb];
      (repeat split);
      intros Hb; first [apply legacy_move_left | apply legacy_move_right]; lia.
  - cbv zeta. unfold Legacy.handleKey.
    destruct (Legacy.at_index (Legacy.actions ls) (Legacy.actionIndex ls));
      cbn; repeat split.
  - cbv zeta. unfold Legacy.handleKey.
    destruct (Legacy.at_index (Legacy.entries ls) (Legacy.selectedIndex ls));
      cbn; repeat split.
Qed.

(** ** C8: the index update is a function of (index, length, key) *)

(** C8. In the static picker the new index of the row that was active is
    [index_update index length key] of the index and length of that row, so
    two runs that agree on (index, length, key) produce the same new index;
    the same holds in the config-driven picker with its modal closed. *)
Theorem index_update_deterministic (s1 s2 : Legacy.LState) (k : Key)
  (Hi : Observe.row_index (Legacy.activeRow s1) s1 = Observe.row_index (Legacy.activeRow s2) s2)
  (Hl : Observe.row_length (Legacy.activeRow s1) s1 = Observe.row_length (Legacy.activeRow s2) s2) :
  Observe.row_index (Legacy.activeRow s1) (Legacy.outcome_state (Legacy.handleKey k s1)) =
  Observe.index_update (Observe.row_index (Legacy.activeRow s1) s1)
                       (Observe.row_length (Legacy.activeRow s1) s1) k /\
  Observe.row_index (Legacy.activeRow s1) (Legacy.outcome_state (Legacy.handleKey k s1)) =
  Observe.row_index (Legacy.activeRow s2) (Legacy.outcome_state (Legacy.handleKey k s2)) /\
  (forall t1 t2 : AppState, current_theme t1 <> None -> current_theme t2 <> None ->
     showOptions t1 = false -> showOptions t2 = false ->
     Observe.app_row_index (activeRow t1) t1 = Observe.app_row_index (activeRow t2) t2 ->
     Observe.app_row_length (activeRow t1) t1 = Observe.app_row_length (activeRow t2) t2 ->
     option_map (Observe.app_row_index (activeRow t1)) (handleKey k t1) =
     Some (Observe.app_index_update (Observe.app_row_index (activeRow t1) t1)
                                    (Observe.app_row_length (activeRow t1) t1) k) /\
     option_map (Observe.app_row_index (activeRow t1)) (handleKey k t1) =
     option_map (Observe.app_row_index (activeRow t2)) (handleKey k t2)).
Proof.
  assert (Hleg : forall s, Observe.row_index (Legacy.activeRow s)
                             (Legacy.outcome_state (Legacy.handleKey k s)) =
                           Observe.index_update (Observe.row_index (Legacy.activeRow s) s)
                             (Observe.row_length (Legacy.activeRow s) s) k).
  { intros s. unfold Observe.row_index, Observe.row_length, Legacy.handleKey.
    destruct k; destruct (Legacy.activeRow s) eqn:Hr; simpl; rewrite ?Hr; simpl;
      try reflexivity;
      try (destruct (Legacy.at_index _ _); simpl; rewrite ?Hr; reflexivity). }
  assert (Happ : forall t, current_theme t <> None -> showOptions t = false ->
            option_map (Observe.app_row_index (activeRow t)) (handleKey k t) =
            Some (Observe.app_index_update (Observe.app_row_index (activeRow t) t)
                                           (Observe.app_row_length (activeRow t) t) k)).
  { intros t Ht Ho. unfold handleKey.
    destruct (current_theme t) as [th|]; [|congruence]. rewrite Ho.
    unfold Observe.app_row_index, Observe.app_row_length.
    destruct k; destruct (activeRow t) eqn:Hr; simpl; rewrite ?Hr; simpl;
      try reflexivity;
      try (destruct (js_at _ _) as [x|]; simpl; rewrite ?Hr; try reflexivity;
           try (unfold bootEntry; destruct (truthy _));
           try (destruct (String.eqb _ _)); reflexivity). }
  split; [apply Hleg|]. split.
  - rewrite !Hleg, Hi, Hl. reflexivity.
  - intros t1 t2 H1 H2 O1 O2 I L. rewrite (Happ t1 H1 O1), (Happ t2 H2 O2), I, L.
    split; reflexivity.
Qed.

Lemma arrow_keys_rows_witness :
  let s := loaded (Fetched Observe.sample_config) in
  exists s', handleKey ArrowDown s = Some s' /\ activeRow s' = Actions /\
    selectedIndex s' = selectedIndex s /\ actionIndex s' = actionIndex s.
Proof.
  intros s.
  destruct (arrow_keys_rows s (Legacy.mkL Legacy.ClassicId 0 "Boot HFS" Entries 0)
              ltac:(vm_compute; discriminate)) as [H _].
  exact (proj1 (proj2 (H eq_refl))).
Defined.

Lemma index_update_deterministic_witness :
  let s1 := Legacy.mkL Legacy.ClassicId 1 "Boot RECOVERY" Entries 0 in
  let s2 := Legacy.mkL Legacy.ModernLight 1 "Boot Windows" Entries 5 in
  Observe.row_index Entries (Legacy.outcome_state (Legacy.handleKey ArrowRight s1)) =
  Observe.row_index Entries (Legacy.outcome_state (Legacy.handleKey ArrowRight s2)).
Proof.
  intros s1 s2.
  exact (proj1 (proj2 (index_update_deterministic s1 s2 ArrowRight eq_refl eq_refl))).
Defined.

Lemma clover_entry_boot_no_url_witness :
  let s := set_themeId "clover-BGM" (loaded (Fetched Observe.sample_config)) in
  step s (DblClickEntry 0) = set_status "Boot macOS (no URL configured)" s.
Proof.
  intros s.
  exact (proj1 (proj2 (proj2 (proj2
           (clover_entry_boot_no_url "BGM" 0 (mkEntry "macos" "macOS"
              "themes/BGM/icons/os_mac.icns" None (Some EmptyString)) s eq_refl eq_refl))))).
Defined.

(** ** C3: the XP phase only moves forward *)

Import XP.

Abbreviation rank := Observe.phase_rank.
Abbreviation inv := Observe.timers_inv.

Lemma schedule_fold_fields (ks : list Timer) (s0 : XState) :
  phase (fold_left (fun acc k => schedule k acc) ks s0) = phase s0 /\
  mounted (fold_left (fun acc k => schedule k acc) ks s0) = mounted s0.
Proof.
  revert s0. induction ks as [|k ks IH]; intros s0; simpl; [split; reflexivity|].
  destruct (IH (schedule k s0)) as [H1 H2]. rewrite H1, H2. split; reflexivity.
Qed.

Lemma schedule_fold_timers (ks : list Timer) (s0 : XState) id k :
  In (id, k) (timers (fold_left (fun acc k => schedule k acc) ks s0)) ->
  In (id, k) (timers s0) \/ In k ks.
Proof.
  revert s0. induction ks as [|k' ks IH]; intros s0; simpl; [tauto|].
  intros H. destruct (IH _ H) as [H'|H']; [|tauto].
  simpl in H'. apply in_app_or in H'. destruct H' as [H'|[H'|[]]]; [tauto|].
  inversion H'. tauto.
Qed.

Lemma inv_same (s s' : XState) :
  timers s' = timers s -> mounted s' = mounted s -> phase s' = phase s -> inv s -> inv s'.
Proof. unfold Observe.timers_inv. intros -> -> ->. exact (fun H => H). Qed.

Lemma inv_clear (id : nat) (s : XState) : inv s -> inv (clear id s).
Proof.
  unfold Observe.timers_inv, clear, set_timers. simpl. intros H j k Hin.
  apply filter_In in Hin. exact (H j k (proj1 Hin)).
Qed.

Lemma inv_schedule_login (u : User) (s : XState) : inv s -> inv (schedule (TLoginTimer u) s).
Proof.
  unfold Observe.timers_inv, schedule. simpl. intros H j k Hin Hk.
  apply in_app_or in Hin. destruct Hin as [Hin|[Hin|[]]]; [exact (H j k Hin Hk)|].
  inversion Hin; subst. discriminate.
Qed.

Lemma set_phase_ok (p : BootPhase) (s : XState) :
  inv s -> rank (phase s) <= rank p ->
  inv (set_phase p s) /\ rank (phase s) <= rank (phase (set_phase p s)).
Proof.
  intros H Hr. unfold set_phase.
  destruct (negb (mounted s) || phase_eqb p (phase s)) eqn:E; [split; [exact H | lia]|].
  apply orb_false_iff in E. destruct E as [Em _]. apply negb_false_iff in Em.
  destruct (schedule_fold_fields (phase_timers p)
              (set_phase_raw p (set_timers (filter (fun '(_, k) => negb (effect_timer k))
                                                   (timers s)) s))) as [Hp Hm].
  rewrite Hp. split; [|simpl; lia].
  intros j k Hin Hk. rewrite Hp, Hm. simpl. split; [exact Em|].
  apply schedule_fold_timers in Hin. destruct Hin as [Hin|Hin]; [|exact Hin].
  simpl in Hin. apply filter_In in Hin. destruct Hin as [_ Hin].
  rewrite Hk in Hin. discriminate.
Qed.

Lemma handleLogin_ok (u : User) (s : XState) :
  inv s -> rank (phase s) <= 4 ->
  inv (handleLogin u s) /\ rank (phase s) <= rank (phase (handleLogin u s)).
Proof.
  intros H Hr. unfold handleLogin.
  destruct (set_phase_ok LoggingIn (set_loggingInUser (Some u) s)) as [H1 H2];
    [exact H | exact Hr |].
  split; [apply inv_schedule_login, H1 | exact H2].
Qed.

Lemma phase_eqb_true (a b : BootPhase) : phase_eqb a b = true -> a = b.
Proof. destruct a, b; simpl; congruence. Qed.

Lemma inv_owner (s : XState) id k :
  inv s -> In (id, k) (timers s) -> effect_timer k = true ->
  mounted s = true /\ In k (phase_timers (phase s)).
Proof. intros H. apply H. Qed.

Lemma phase_clear (id : nat) (s : XState) : phase (clear id s) = phase s.
Proof. reflexivity. Qed.

Ltac same_ok H :=
  split; [eapply inv_same; [reflexivity | reflexivity | reflexivity | exact H]
         | simpl; try (match goal with E : phase _ = _ |- _ => rewrite E end); simpl; lia].

Lemma owner_phase (s : XState) id k :
  inv s -> In (id, k) (timers s) -> effect_timer k = true ->
  In k (phase_timers (phase s)).
Proof. intros H Hin Hk. exact (proj2 (H id k Hin Hk)). Qed.

Lemma xstep_ok (users : list User) (s : XState) (e : XEvent) :
  inv s -> inv (xstep users s e) /\ rank (phase s) <= rank (phase (xstep users s e)).
Proof.
  intros H. destruct e as [k|id|i|i| |]; simpl.
  - (* a key *)
    unfold handleKeyDown. destruct (mounted s) eqn:Hm; simpl; [|same_ok H].
    destruct k; try (same_ok H);
      destruct (phase s) eqn:Hp; try (same_ok H).
    + rewrite <- Hp. apply set_phase_ok; [exact H | rewrite Hp; simpl; lia].
    + destruct (selectedUser s); [|same_ok H].
      rewrite <- Hp. apply handleLogin_ok; [exact H | rewrite Hp; simpl; lia].
  - (* a timer fires *)
    unfold fire. destruct (find _ (timers s)) as [[j k]|] eqn:Hf; [|same_ok H].
    apply find_some in Hf. destruct Hf as [Hin _].
    assert (Hc : inv (clear id s)) by (apply inv_clear, H).
    destruct k.
    + same_ok H.
    + split; [exact Hc | simpl; lia].
    + pose proof (owner_phase s j _ H Hin eq_refl) as Hp.
      destruct (phase s) eqn:Hps; simpl in Hp; try (intuition discriminate).
      destruct (set_phase_ok Bootloader (clear id s) Hc) as [A B];
        [rewrite phase_clear, Hps; simpl; lia|].
      rewrite phase_clear, Hps in B. split; [exact A | exact B].
    + pose proof (owner_phase s j _ H Hin eq_refl) as Hp.
      destruct (mounted s); simpl; [|same_ok H].
      destruct (countdown s <=? 1); [|same_ok H].
      destruct (phase s) eqn:Hps; simpl in Hp; try (intuition discriminate).
      assert (Hc' : inv (set_countdown 0 (clear id s)))
        by (eapply inv_same; [reflexivity | reflexivity | reflexivity | exact Hc]).
      destruct (set_phase_ok Boot (set_countdown 0 (clear id s)) Hc') as [A B];
        [simpl; rewrite Hps; simpl; lia|].
      change (phase (set_countdown 0 (clear id s))) with (phase s) in B.
      rewrite Hps in B. split; [exact A | exact B].
    + pose proof (owner_phase s j _ H Hin eq_refl) as Hp.
      destruct (phase s) eqn:Hps; simpl in Hp; try (intuition discriminate).
      destruct (set_phase_ok Login (clear id s) Hc) as [A B];
        [rewrite phase_clear, Hps; simpl; lia|].
      rewrite phase_clear, Hps in B. split; [exact A | exact B].
    + destruct (set_phase_ok Desktop (clear id s) Hc) as [A B];
        [rewrite phase_clear; destruct (phase s); simpl; lia|].
      split; [eapply inv_same; [reflexivity | reflexivity | reflexivity | exact A] | exact B].
  - (* a boot option is clicked *)
    destruct (mounted s && phase_eqb (phase s) Bootloader && Nat.ltb i _) eqn:E; [|same_ok H].
    apply andb_true_iff in E. destruct E as [E _]. apply andb_true_iff in E.
    destruct E as [_ E]. apply phase_eqb_true in E.
    destruct (set_phase_ok Boot (set_bootloaderIndex (Z.of_nat i) s)) as [A B].
    + eapply inv_same; [reflexivity | reflexivity | reflexivity | exact H].
    + simpl. rewrite E. simpl. lia.
    + split; [exact A | exact B].
  - (* a user tile is clicked *)
    destruct (mounted s && (phase_eqb (phase s) Login || phase_eqb (phase s) LoggingIn)) eqn:E;
      [|same_ok H].
    assert (Hr : rank (phase s) <= 4).
    { apply andb_true_iff in E. destruct E as [_ E]. apply orb_true_iff in E.
      destruct E as [E|E]; apply phase_eqb_true in E; rewrite E; simpl; lia. }
    destruct (nth_error users i) as [u|]; [|same_ok H].
    unfold handleUserClick. destruct (selectedUser s) as [v|]; [|same_ok H].
    destruct (String.eqb (u_id v) (u_id u)); [|same_ok H].
    apply handleLogin_ok; assumption.
  - (* the exit button *)
    destruct (mounted s && phase_eqb (phase s) Desktop); same_ok H.
  - (* unmount *)
    split; [|simpl; lia].
    intros j k Hin Hk. simpl in Hin. apply filter_In in Hin.
    destruct Hin as [_ Hin]. rewrite Hk in Hin. discriminate.
Qed.

Lemma xinit_inv : inv xinit.
Proof.
  intros j k Hin _. simpl in Hin.
  destruct Hin as [E|[E|[E|[]]]]; inversion E; subst; split; simpl; auto.
Qed.

Lemma reachable_inv (users : list User) (s : XState) : reachable users s -> inv s.
Proof.
  induction 1 as [|s e _ IH]; [exact xinit_inv | exact (proj1 (xstep_ok users s e IH))].
Qed.

Lemma reachable_run (users : list User) (s : XState) (es : list XEvent) :
  reachable users s -> reachable users (xrun users s es).
Proof.
  revert s. induction es as [|e es IH]; intros s H; [exact H|].
  apply IH. constructor. exact H.
Qed.

Lemma rank_inj (a b : BootPhase) : rank a = rank b -> a = b.
Proof. destruct a, b; simpl; congruence. Qed.

(** C3, counterexample: from the login screen with a user selected, Enter
    moves to the [logging-in] phase, which is not in the sequence post,
    bootloader, boot, login, desktop. *)
Lemma login_enter_goes_to_logging_in :
  let s := xrun defaultUsers xinit
             [Fire 2; Fire 3; Fire 3; Fire 3; Fire 3; Fire 3; Fire 4; XKey ArrowDown] in
  reachable defaultUsers s /\ phase s = Login /\
  phase (xstep defaultUsers s (XKey Enter)) = LoggingIn /\
  ~ In LoggingIn [Post; Bootloader; Boot; Login; Desktop].
Proof.
  intros s. split; [apply reachable_run, reach_init|].
  split; [reflexivity|]. split; [reflexivity|].
  simpl. intuition discriminate.
Qed.

(** C3, amended.  In every reachable state, any event (a timer or interval
    callback, a key, a click, unmounting) leaves the phase as it is or moves
    it to a later phase of post < bootloader < boot < login < logging-in <
    desktop; no step moves it backward. *)
Theorem xp_phase_forward (users : list User) (s : XState) (e : XEvent)
  (Hr : reachable users s) :
  rank (phase s) <= rank (phase (xstep users s e)) /\
  (phase (xstep users s e) <> phase s -> rank (phase s) < rank (phase (xstep users s e))).
Proof.
  destruct (xstep_ok users s e (reachable_inv users s Hr)) as [_ H].
  split; [exact H|]. intros Hne.
  destruct (Z.eq_dec (rank (phase s)) (rank (phase (xstep users s e)))) as [E|E];
    [apply rank_inj in E; congruence | lia].
Qed.

Lemma xp_phase_forward_witness :
  let s := xrun defaultUsers xinit [Fire 2] in
  rank (phase s) <= rank (phase (xstep defaultUsers s (XKey Enter))).
Proof.
  intros s. exact (proj1 (xp_phase_forward defaultUsers s (XKey Enter)
                            (reachable_run _ _ _ (reach_init defaultUsers)))).
Defined.

(** ** C4: the [handleLogin] timeout is never cancelled *)

(** The timeout scheduled by [handleLogin] survives unmounting and every
    phase change. *)
Lemma login_timer_survives (s : XState) (id : nat) (u : User) (p : BootPhase) :
  In (id, TLoginTimer u) (timers s) ->
  In (id, TLoginTimer u) (timers (unmount s)) /\
  In (id, TLoginTimer u) (timers (set_phase p s)).
Proof.
  intros H. split.
  - simpl. apply filter_In. split; [exact H | reflexivity].
  - unfold set_phase. destruct (negb (mounted s) || phase_eqb p (phase s)); [exact H|].
    assert (Hf : In (id, TLoginTimer u)
                   (timers (set_phase_raw p (set_timers
                      (filter (fun '(_, k) => negb (effect_timer k)) (timers s)) s)))).
    { simpl. apply filter_In. split; [exact H | reflexivity]. }
    generalize Hf. generalize (set_phase_raw p (set_timers
      (filter (fun '(_, k) => negb (effect_timer k)) (timers s)) s)).
    induction (phase_timers p) as [|k ks IH]; intros x Hx; [exact Hx|].
    simpl. apply IH. simpl. apply in_or_app. left. exact Hx.
Qed.

(** C4 (code bug).  Log in (Enter on the selected user) and unmount the
    component before the 2000 ms timeout: the timeout is still pending, and
    when it fires it calls [onLogin] on the unmounted component. *)
Theorem login_timer_fires_after_unmount :
  let s := xrun defaultUsers xinit
             [Fire 2; Fire 3; Fire 3; Fire 3; Fire 3; Fire 3; Fire 4;
              XKey ArrowDown; XKey Enter; Unmount] in
  reachable defaultUsers s /\ mounted s = false /\
  timers s = [(5%nat, TLoginTimer (mkUser "1" "Administrator" "xp/images/user/astronaut.png"))] /\
  outputs (xstep defaultUsers s (Fire 5)) =
    [(OnLogin (mkUser "1" "Administrator" "xp/images/user/astronaut.png"), false)].
Proof.
  intros s. split; [apply reachable_run, reach_init|].
  vm_compute. repeat split.
Qed.

(** ** C5 and C9: the options modal *)

Import Clover.

(** With the option index on a theme of the list, Enter selects that theme
    and closes the modal, Escape closes it, Left/Right do nothing and Up/Down
    only move the option index. *)
Lemma options_modal_keys (s : AppState) (t : Theme)
  (Ho : showOptions s = true) (Hi : js_at (themes s) (optionIndex s) = Some t) :
  handleKey Enter s = Some (set_showOptions false (set_themeId (t_id t) s)) /\
  handleKey Escape s = Some (set_showOptions false s) /\
  handleKey ArrowLeft s = Some s /\ handleKey ArrowRight s = Some s /\
  handleKey ArrowUp s = Some (set_optionIndex (prev_index (optionIndex s) (js_len (themes s))) s) /\
  handleKey ArrowDown s = Some (set_optionIndex (next_index (optionIndex s) (js_len (themes s))) s).
Proof.
  destruct (theme_of_themes s) as [th Hth].
  { intros E. rewrite E in Hi. destruct (optionIndex s) as [z|]; simpl in Hi;
      [destruct (0 <=? z), (Z.to_nat z)|]; discriminate. }
  unfold handleKey. rewrite Hth, Ho, Hi. repeat split.
Qed.

(** C5 (code bug).  With a [defaultTheme] that names no theme, opening the
    options modal sets the option index to [-1] ([findIndex] finds nothing);
    Enter then reads [.id] of [themes[-1]], which is [undefined]: the
    listener throws, the theme is not changed and the modal stays open. *)
Theorem options_enter_throws_on_unknown_theme :
  let s := run (loaded (Fetched Observe.sample_config_unknown_default))
               [Key_ ArrowDown; Key_ ArrowRight; Key_ Enter] in
  showOptions s = true /\ optionIndex s = Some (-1) /\
  handleKey Enter s = None /\ step s (Key_ Enter) = s /\
  showOptions (step s (Key_ Enter)) = true.
Proof. intros s. vm_compute. repeat split. Qed.

(** C9 (code bug).  On the same config, whose only theme has non-empty
    entries and actions, three key presses from the initial selection leave
    the option index at [-1], outside [[0, length themes)]. *)
Theorem option_index_leaves_range :
  let s := run (loaded (Fetched Observe.sample_config_unknown_default))
               [Key_ ArrowDown; Key_ ArrowRight; Key_ Enter] in
  let s0 := loaded (Fetched Observe.sample_config_unknown_default) in
  selectedIndex s0 = Some 0 /\ activeRow s0 = Entries /\
  (forall t, In t (themes s) -> t_entries t <> [] /\ t_actions t <> []) /\
  optionIndex s = Some (-1) /\
  ~ (0 <= -1 < Z.of_nat (List.length (themes s))).
Proof.
  intros s s0. split; [vm_compute; reflexivity|]. split; [vm_compute; reflexivity|]. split.
  - intros t Ht. vm_compute in Ht. destruct Ht as [<-|[]]. split; discriminate.
  - split; [vm_compute; reflexivity | lia].
Qed.

(** * Further properties of the config-driven picker *)

Ltac destr_all :=
  repeat match goal with
         | |- context [if ?b then _ else _] => destruct b
         | |- context [match ?x with _ => _ end] => destruct x
         end; simpl.

Lemma run_effects_keep (prev cur : AppState) :
  let r := run_effects prev cur in
  themes r = themes cur /\ themeId r = themeId cur /\ showOptions r = showOptions cur /\
  optionIndex r = optionIndex cur /\ pending_navigations r = pending_navigations cur.
Proof. unfold run_effects. destr_all; repeat split. Qed.

Lemma run_effects_idx (prev cur : AppState) :
  let r := run_effects prev cur in
  (selectedIndex r = selectedIndex cur /\ actionIndex r = actionIndex cur /\
   activeRow r = activeRow cur) \/
  (selectedIndex r = Some 0 /\ actionIndex r = Some 0 /\ activeRow r = Entries).
Proof. unfold run_effects. destr_all; auto. Qed.

Lemma run_effects_reset (prev cur : AppState) :
  current_theme cur <> None ->
  themeId prev <> themeId cur \/ List.length (themes prev) <> List.length (themes cur) ->
  let r := run_effects prev cur in
  selectedIndex r = Some 0 /\ actionIndex r = Some 0 /\ activeRow r = Entries.
Proof.
  intros Ht Hc. unfold run_effects.
  assert (Hr : negb (String.eqb (themeId prev) (themeId cur))
               || negb (Nat.eqb (List.length (themes prev)) (List.length (themes cur))) = true).
  { destruct Hc as [Hc|Hc].
    - apply String.eqb_neq in Hc. rewrite Hc. reflexivity.
    - apply Nat.eqb_neq in Hc. rewrite Hc, orb_true_r. reflexivity. }
  rewrite Hr. destruct (current_theme cur); [|congruence].
  destr_all; auto.
Qed.

Lemma settle_keep (n : nat) (prev cur : AppState) :
  let r := settle n prev cur in
  themes r = themes cur /\ themeId r = themeId cur /\ showOptions r = showOptions cur /\
  optionIndex r = optionIndex cur /\ pending_navigations r = pending_navigations cur.
Proof.
  revert prev cur. induction n as [|n IH]; intros prev cur; simpl; [repeat split|].
  destruct (run_effects_keep prev cur) as (A & B & C & D & E).
  destruct (same_deps cur (run_effects prev cur)); [repeat split; assumption|].
  destruct (IH cur (run_effects prev cur)) as (A' & B' & C' & D' & E').
  repeat split; congruence.
Qed.

Lemma settle_idx (n : nat) (prev cur : AppState) :
  let r := settle n prev cur in
  (selectedIndex r = selectedIndex cur /\ actionIndex r = actionIndex cur /\
   activeRow r = activeRow cur) \/
  (selectedIndex r = Some 0 /\ actionIndex r = Some 0 /\ activeRow r = Entries).
Proof.
  revert prev cur. induction n as [|n IH]; intros prev cur; simpl; [auto|].
  pose proof (run_effects_idx prev cur) as H.
  destruct (same_deps cur (run_effects prev cur)); [exact H|].
  destruct (IH cur (run_effects prev cur)) as [(A & B & C)|Z]; [|right; exact Z].
  destruct H as [(A' & B' & C')|(A' & B' & C')]; [left|right]; repeat split; congruence.
Qed.

Lemma settle_reset (n : nat) (prev cur : AppState) :
  current_theme cur <> None ->
  themeId prev <> themeId cur \/ List.length (themes prev) <> List.length (themes cur) ->
  let r := settle (S n) prev cur in
  selectedIndex r = Some 0 /\ actionIndex r = Some 0 /\ activeRow r = Entries.
Proof.
  intros Ht Hc. simpl.
  pose proof (run_effects_reset prev cur Ht Hc) as (A & B & C).
  destruct (same_deps cur (run_effects prev cur)); [auto|].
  destruct (settle_idx n cur (run_effects prev cur)) as [(A' & B' & C')|Z]; [|exact Z].
  repeat split; congruence.
Qed.

Lemma current_theme_in (s : AppState) (t : Theme) :
  current_theme s = Some t -> In t (themes s).
Proof.
  unfold current_theme. destruct (find _ _) as [x|] eqn:F.
  - intros [= <-]. exact (proj1 (find_some _ _ F)).
  - destruct (themes s); simpl; [discriminate|]. intros [= <-]. left; reflexivity.
Qed.

Lemma current_theme_congr (a b : AppState) :
  themes a = themes b -> themeId a = themeId b -> current_theme a = current_theme b.
Proof. intros H1 H2. unfold current_theme. rewrite H1, H2. reflexivity. Qed.

Lemma entries_congr (a b : AppState) :
  themes a = themes b -> themeId a = themeId b ->
  entries a = entries b /\ actions a = actions b.
Proof.
  intros H1 H2. unfold entries, actions. rewrite (current_theme_congr a b H1 H2). auto.
Qed.

(** With every theme's rows non-empty, the rows of the shown theme are
    non-empty. *)
Lemma rows_of_shown (s : AppState) :
  themes s <> [] -> Observe.rows_nonempty (themes s) ->
  (0 < List.length (entries s))%nat /\ (0 < List.length (actions s))%nat.
Proof.
  intros Hne Hr. destruct (theme_of_themes s Hne) as [t Ht].
  pose proof (current_theme_in s t Ht) as Hin.
  unfold Observe.rows_nonempty in Hr. rewrite Forall_forall in Hr.
  destruct (Hr t Hin) as [He Ha]. unfold entries, actions. rewrite Ht.
  destruct (t_entries t); [congruence|]. destruct (t_actions t); [congruence|].
  simpl. lia.
Qed.

Lemma idx_of_nat (i n : nat) : (i < n)%nat -> Observe.idx_in (Some (Z.of_nat i)) n.
Proof. intros H. exists (Z.of_nat i). split; [reflexivity|lia]. Qed.

Lemma prev_in {A} (i : jsnum) (l : list A) :
  Observe.idx_in i (List.length l) ->
  Observe.idx_in (prev_index i (js_len l)) (List.length l).
Proof.
  intros (z & -> & Hz). unfold js_len. rewrite prev_index_wrap by lia.
  eexists; split; [reflexivity|]. apply Z.mod_pos_bound. lia.
Qed.

Lemma next_in {A} (i : jsnum) (l : list A) :
  Observe.idx_in i (List.length l) ->
  Observe.idx_in (next_index i (js_len l)) (List.length l).
Proof.
  intros (z & -> & Hz). unfold js_len. rewrite next_index_wrap by lia.
  eexists; split; [reflexivity|]. apply Z.mod_pos_bound. lia.
Qed.

Lemma js_at_in {A} (l : list A) (i : jsnum) (x : A) : js_at l i = Some x -> In x l.
Proof.
  unfold js_at. destruct i as [z|]; [|discriminate].
  destruct (0 <=? z); [apply nth_error_In|discriminate].
Qed.

Lemma find_index_range {A} (p : A -> bool) (l : list A) :
  find_index p l = -1 \/ 0 <= find_index p l < Z.of_nat (List.length l).
Proof.
  induction l as [|x l IH]; simpl; [auto|].
  destruct (p x); [right; lia|].
  destruct (find_index p l =? -1) eqn:E; [auto|].
  apply Z.eqb_neq in E. right. lia.
Qed.

Lemma find_index_found {A} (p : A -> bool) (l : list A) (x : A) :
  In x l -> p x = true -> 0 <= find_index p l < Z.of_nat (List.length l).
Proof.
  induction l as [|y l IH]; simpl; [tauto|]. intros Hin Hp.
  destruct (p y) eqn:Py; [lia|]. destruct Hin as [<-|Hin]; [congruence|].
  specialize (IH Hin Hp). destruct (find_index p l =? -1) eqn:E.
  - apply Z.eqb_eq in E. lia.
  - lia.
Qed.

Ltac destr_in H :=
  repeat match type of H with
         | context [if ?b then _ else _] => destruct b eqn:?
         | context [match ?x with _ => _ end] => destruct x eqn:?
         end.

(** A handler keeps the theme list, and only sets the theme id to the id of
    a listed theme. *)
Lemma handle_event_themes (ev : UiEvent) (s s' : AppState) :
  handle_event ev s = Some s' ->
  themes s' = themes s /\
  (themeId s' = themeId s \/ In (themeId s') (map t_id (themes s))).
Proof.
  unfold handle_event, handleKey, bootEntry. intros H. destr_in H;
    try discriminate; injection H as <-; simpl; split; try reflexivity;
    try (left; reflexivity); right; apply in_map; first [eapply js_at_in; eassumption | eapply nth_error_In; eassumption].
Qed.

(** A handler that keeps the theme id keeps both indices of the rows in
    range. *)
Lemma handle_event_rows (ev : UiEvent) (s s' : AppState) :
  Observe.rows_ok s -> handle_event ev s = Some s' -> themeId s' = themeId s ->
  Observe.rows_ok s'.
Proof.
  intros [Hs Ha] H Hid. destruct (handle_event_themes _ _ _ H) as [Ht _].
  destruct (entries_congr s' s Ht Hid) as [E A]. unfold Observe.rows_ok. rewrite E, A.
  unfold handle_event, handleKey, bootEntry in H. destr_in H;
    try discriminate; injection H as <-; simpl; split; try assumption;
    first [ apply prev_in; assumption | apply next_in; assumption
          | apply idx_of_nat, Nat.ltb_lt; assumption
          | apply idx_of_nat, nth_error_Some; congruence ].
Qed.

(** A handler keeps the theme id among the listed ids and the modal index in
    the range of the theme list. *)
Lemma handle_event_option (ev : UiEvent) (s s' : AppState) :
  Observe.option_ok s -> handle_event ev s = Some s' -> Observe.option_ok s'.
Proof.
  intros [Hid Ho] H. destruct (handle_event_themes _ _ _ H) as [Ht Hin].
  unfold Observe.option_ok. rewrite Ht. split; [destruct Hin as [->|]; assumption|].
  unfold handle_event, handleKey, bootEntry in H. destr_in H;
    try discriminate; injection H as <-; simpl; try assumption;
    first [ apply prev_in; assumption | apply next_in; assumption | idtac ].
  all: apply in_map_iff in Hid; destruct Hid as (th & Et & Tin).
  all: exists (theme_index s); split; [reflexivity|].
  all: apply (find_index_found _ _ th Tin); rewrite Et; apply String.eqb_refl.
Qed.

Lemma step_themes (s : AppState) (ev : UiEvent) : themes (step s ev) = themes s.
Proof.
  unfold step. destruct (handle_event ev s) as [s'|] eqn:H; [|reflexivity].
  rewrite (proj1 (settle_keep 3 s s')). exact (proj1 (handle_event_themes _ _ _ H)).
Qed.

Lemma run_themes (s : AppState) (evs : list UiEvent) : themes (run s evs) = themes s.
Proof.
  unfold run. revert s. induction evs as [|ev evs IH]; intros s; simpl; [reflexivity|].
  rewrite IH. apply step_themes.
Qed.

Lemma zeros_ok (r : AppState) :
  themes r <> [] -> Observe.rows_nonempty (themes r) ->
  selectedIndex r = Some 0 -> actionIndex r = Some 0 -> Observe.rows_ok r.
Proof.
  intros Hne Hr A B. destruct (rows_of_shown r Hne Hr) as [Le La].
  unfold Observe.rows_ok. rewrite A, B. split; apply (idx_of_nat 0); assumption.
Qed.

Lemma step_rows (s : AppState) (ev : UiEvent) :
  themes s <> [] -> Observe.rows_nonempty (themes s) -> Observe.rows_ok s ->
  Observe.rows_ok (step s ev).
Proof.
  intros Hne Hr Hok. unfold step. destruct (handle_event ev s) as [s'|] eqn:H; [|exact Hok].
  destruct (handle_event_themes _ _ _ H) as [Ht _].
  destruct (settle_keep 3 s s') as (K1 & K2 & _).
  assert (Hne' : themes (settle 3 s s') <> []) by (rewrite K1, Ht; exact Hne).
  assert (Hr' : Observe.rows_nonempty (themes (settle 3 s s'))) by (rewrite K1, Ht; exact Hr).
  destruct (string_dec (themeId s') (themeId s)) as [Eq|Ne].
  - pose proof (handle_event_rows _ _ _ Hok H Eq) as [Hs Ha].
    destruct (settle_idx 3 s s') as [(A & B & _)|(A & B & _)];
      [|apply zeros_ok; assumption].
    destruct (entries_congr _ _ K1 K2) as [E F].
    unfold Observe.rows_ok. rewrite E, F, A, B. split; assumption.
  - assert (Hc : current_theme s' <> None).
    { destruct (theme_of_themes s') as [t Et]; [rewrite Ht; exact Hne|congruence]. }
    destruct (settle_reset 2 s s' Hc) as (A & B & _); [left; congruence|].
    apply zeros_ok; assumption.
Qed.

Lemma step_option (s : AppState) (ev : UiEvent) :
  Observe.option_ok s -> Observe.option_ok (step s ev).
Proof.
  intros Hok. unfold step. destruct (handle_event ev s) as [s'|] eqn:H; [|exact Hok].
  pose proof (handle_event_option _ _ _ Hok H) as [Hi Ho].
  destruct (settle_keep 3 s s') as (K1 & K2 & _ & K4 & _).
  unfold Observe.option_ok. rewrite K1, K2, K4. split; assumption.
Qed.

(** The state once [config.json] has been read. *)
Lemma on_config_fields (data : Config) :
  let s := on_config (Fetched data) init in
  themes s = build_themes data /\ themeId s = Observe.default_id data /\
  optionIndex s = Some 0 /\ showOptions s = false /\ pending_navigations s = [].
Proof. unfold on_config, Observe.default_id. destr_all; repeat split. Qed.

Lemma loaded_fields (data : Config) :
  let s := loaded (Fetched data) in
  themes s = build_themes data /\ themeId s = Observe.default_id data /\
  optionIndex s = Some 0 /\ showOptions s = false /\ pending_navigations s = [].
Proof.
  destruct (on_config_fields data) as (A & B & C & D & E).
  destruct (settle_keep 3 init (on_config (Fetched data) init)) as (A' & B' & C' & D' & E').
  unfold loaded. repeat split; congruence.
Qed.

Lemma loaded_zeros (data : Config) :
  build_themes data <> [] ->
  let s := loaded (Fetched data) in
  selectedIndex s = Some 0 /\ actionIndex s = Some 0 /\ activeRow s = Entries.
Proof.
  intros Hne. destruct (on_config_fields data) as (A & _).
  apply settle_reset.
  - destruct (theme_of_themes (on_config (Fetched data) init)) as [t Et];
      [rewrite A; exact Hne|congruence].
  - right. rewrite A. simpl. destruct (build_themes data); [congruence|]. simpl. lia.
Qed.

(** ** Extra properties of the config-driven picker *)

(** After a successful load with at least one theme, all of whose rows are
    non-empty, the selected entry index and the action index always point
    into the rows of the shown theme, whatever events follow. *)
Theorem picker_indices_in_range (data : Config) (evs : list UiEvent) :
  build_themes data <> [] -> Observe.rows_nonempty (build_themes data) ->
  Observe.rows_ok (run (loaded (Fetched data)) evs).
Proof.
  intros Hne Hr. destruct (loaded_fields data) as (T & _).
  destruct (loaded_zeros data Hne) as (A & B & _).
  assert (H0 : Observe.rows_ok (loaded (Fetched data))) by (apply zeros_ok; congruence).
  rewrite <- T in Hne, Hr. clear T A B. revert H0 Hne Hr.
  generalize (loaded (Fetched data)). unfold run.
  induction evs as [|ev evs IH]; intros s H0 Hne Hr; simpl; [exact H0|].
  apply IH; rewrite ?step_themes; [apply step_rows|..]; assumption.
Qed.

(** When the config's default theme id (["classic"] for an empty one) names
    a theme of the built list, the current theme id stays the id of a listed
    theme and the options-modal index stays in the range of the theme list,
    whatever events follow. *)
Theorem picker_option_in_range (data : Config) (evs : list UiEvent) :
  In (Observe.default_id data) (map t_id (build_themes data)) ->
  Observe.option_ok (run (loaded (Fetched data)) evs).
Proof.
  intros Hin. destruct (loaded_fields data) as (T & I & O & _).
  assert (H0 : Observe.option_ok (loaded (Fetched data))).
  { unfold Observe.option_ok. rewrite T, I, O. split; [exact Hin|].
    apply (idx_of_nat 0). destruct (build_themes data); [contradiction|]. simpl. lia. }
  revert H0. generalize (loaded (Fetched data)). unfold run.
  induction evs as [|ev evs IH]; intros s H0; simpl; [exact H0|].
  apply IH, step_option, H0.
Qed.

Lemma on_config_shape (data : Config) :
  let s1 := on_config (Fetched data) init in
  selectedIndex s1 = Some 0 /\ actionIndex s1 = Some 0 /\ activeRow s1 = Entries /\
  status s1 = match current_theme s1 with
              | Some t => match t_entries t with
                          | e :: _ => "Boot " ++ e_name e
                          | [] => "Loading..."
                          end
              | None => "Loading..."
              end.
Proof.
  intros s1. destruct (on_config_fields data) as (T & I & _). fold s1 in T, I.
  unfold current_theme. rewrite T, I. unfold s1, on_config. fold (Observe.default_id data).
  simpl. destruct (find _ _); [|destruct (build_themes data)]; simpl; repeat split;
    destruct (t_entries _); reflexivity.
Qed.

(** After a successful load with at least one theme, the picker shows the
    theme whose id is the default id of the config (["classic"] when empty),
    or the first theme when no theme has that id; the modal is closed, the
    entry row is active, both indices and the modal index are 0, no
    navigation is scheduled, and the status line reads
    ["Boot <first entry>"], or keeps ["Loading..."] when the shown theme has
    no entries. *)
Theorem loaded_initial_view (data : Config) :
  build_themes data <> [] ->
  let s := loaded (Fetched data) in
  exists t, In t (build_themes data) /\
    (In (Observe.default_id data) (map t_id (build_themes data)) ->
     t_id t = Observe.default_id data) /\
    (~ In (Observe.default_id data) (map t_id (build_themes data)) ->
     hd_error (build_themes data) = Some t) /\
    view s = PickerScreen t (match t_entries t with
                             | e :: _ => "Boot " ++ e_name e
                             | [] => "Loading..."
                             end) false /\
    selectedIndex s = Some 0 /\ actionIndex s = Some 0 /\ activeRow s = Entries /\
    optionIndex s = Some 0 /\ pending_navigations s = [].
Proof.
  intros Hne s.
  destruct (on_config_fields data) as (T & I & O & Sh & P).
  destruct (on_config_shape data) as (A & B & R & St).
  set (s1 := on_config (Fetched data) init) in *.
  destruct (theme_of_themes s1) as [t Ht]; [rewrite T; exact Hne|].
  rewrite Ht in St.
  assert (Hr : selectedIndex (run_effects init s1) = Some 0 /\
               actionIndex (run_effects init s1) = Some 0 /\
               activeRow (run_effects init s1) = Entries).
  { apply run_effects_reset; [congruence|]. right. rewrite T. simpl.
    destruct (build_themes data); [congruence|]. simpl. lia. }
  destruct Hr as (Ra & Rb & Rc).
  destruct (run_effects_keep init s1) as (K1 & K2 & K3 & K4 & K5).
  assert (Hs : s = run_effects init s1).
  { unfold s, loaded. fold s1.
    change (settle 3 init s1) with
      (let r := run_effects init s1 in if same_deps s1 r then r else settle 2 s1 r).
    cbv zeta. replace (same_deps s1 (run_effects init s1)) with true; [reflexivity|].
    symmetry. unfold same_deps. rewrite K1, K2, Ra, Rc, A, R, String.eqb_refl, Nat.eqb_refl.
    reflexivity. }
  assert (Hst : status (run_effects init s1) =
                match t_entries t with e :: _ => "Boot " ++ e_name e | [] => "Loading..." end).
  { unfold run_effects. rewrite Ht. unfold entries. rewrite Ht, A, R.
    unfold js_at. destruct (t_entries t); simpl; destr_all; first [reflexivity | assumption]. }
  exists t. split; [|split; [|split; [|split]]].
  - rewrite <- T. exact (current_theme_in s1 t Ht).
  - intros Hin. revert Ht. unfold current_theme. rewrite T, I.
    destruct (find _ _) as [x|] eqn:F.
    + intros [= <-]. apply find_some in F. apply String.eqb_eq, F.
    + apply in_map_iff in Hin. destruct Hin as (x & Ex & Xin).
      apply (find_none _ _ F) in Xin. rewrite Ex, String.eqb_refl in Xin. discriminate.
  - intros Hnin. revert Ht. unfold current_theme. rewrite T, I.
    destruct (find _ _) as [x|] eqn:F; [|auto].
    intros [= <-]. apply find_some in F. destruct F as [Fin Fid].
    apply String.eqb_eq in Fid. exfalso. apply Hnin. rewrite <- Fid. apply in_map, Fin.
  - unfold view. rewrite Hs, (current_theme_congr _ s1 K1 K2), Ht, Hst, K3, Sh. reflexivity.
  - rewrite Hs. split; [exact Ra|]. split; [exact Rb|]. split; [exact Rc|]. split; congruence.
Qed.

Lemma run_no_theme (s : AppState) (evs : list UiEvent) :
  current_theme s = None -> run s evs = s.
Proof.
  intros H. unfold run. induction evs as [|ev evs IH]; simpl; [reflexivity|].
  rewrite (step_no_theme s ev H). exact IH.
Qed.

(** A config whose built theme list is empty (no themes and no
    [cloverThemes]) leaves the app on the loading screen with the status
    ["Loading..."] for good: no event changes the state. *)
Theorem empty_config_stays_loading (data : Config) (evs : list UiEvent) :
  build_themes data = [] ->
  let s := run (loaded (Fetched data)) evs in
  s = loaded (Fetched data) /\ view s = LoadingScreen "Loading..." /\ config s = Some data.
Proof.
  intros He s.
  destruct (on_config_fields data) as (T & _).
  destruct (on_config_shape data) as (_ & _ & _ & St).
  set (s1 := on_config (Fetched data) init) in *.
  assert (Hc : current_theme s1 = None) by (unfold current_theme; rewrite T, He; reflexivity).
  rewrite Hc in St.
  assert (Hl : loaded (Fetched data) = s1).
  { unfold loaded. fold s1.
    change (settle 3 init s1) with
      (let r := run_effects init s1 in if same_deps s1 r then r else settle 2 s1 r).
    cbv zeta. unfold run_effects at 1 2. rewrite Hc, same_deps_refl. reflexivity. }
  assert (Hs : s = s1) by (unfold s; rewrite Hl; apply run_no_theme, Hc).
  rewrite Hs, Hl. split; [reflexivity|]. split.
  - unfold view. rewrite Hc, St. reflexivity.
  - unfold s1, on_config. destr_all; reflexivity.
Qed.

Lemma run_effects_stable (prev cur : AppState) :
  themeId prev = themeId cur -> List.length (themes prev) = List.length (themes cur) ->
  let r := run_effects prev cur in
  selectedIndex r = selectedIndex cur /\ actionIndex r = actionIndex cur /\
  activeRow r = activeRow cur.
Proof.
  intros H1 H2. unfold run_effects. rewrite H1, H2, String.eqb_refl, Nat.eqb_refl. simpl.
  destr_all; auto.
Qed.

Lemma settle_stable (n : nat) (prev cur : AppState) :
  themeId prev = themeId cur -> List.length (themes prev) = List.length (themes cur) ->
  let r := settle n prev cur in
  selectedIndex r = selectedIndex cur /\ actionIndex r = actionIndex cur /\
  activeRow r = activeRow cur.
Proof.
  revert prev cur. induction n as [|n IH]; intros prev cur H1 H2; simpl; [auto|].
  pose proof (run_effects_stable prev cur H1 H2) as (A & B & C).
  destruct (same_deps cur (run_effects prev cur)); [auto|].
  destruct (run_effects_keep prev cur) as (K1 & K2 & _).
  destruct (IH cur (run_effects prev cur)) as (A' & B' & C'); [congruence|congruence|].
  repeat split; congruence.
Qed.

(** Choosing, in the open options modal, a theme whose id differs from the
    current one (by clicking it, or by Enter on it) closes the modal, makes
    its id current, and resets the selection: both indices become 0 and the
    entry row is active.  The theme list, the modal index and the scheduled
    navigations are kept. *)
Theorem choose_theme_resets (s : AppState) (i : nat) (t : Theme) (ev : UiEvent) :
  showOptions s = true -> nth_error (themes s) i = Some t -> t_id t <> themeId s ->
  ev = ClickOption i \/ (ev = Key_ Enter /\ optionIndex s = Some (Z.of_nat i)) ->
  let r := step s ev in
  themeId r = t_id t /\ showOptions r = false /\
  selectedIndex r = Some 0 /\ actionIndex r = Some 0 /\ activeRow r = Entries /\
  themes r = themes s /\ optionIndex r = optionIndex s /\
  pending_navigations r = pending_navigations s.
Proof.
  intros Hopt Hi Hid Hev r.
  assert (Hne : themes s <> []) by (intros E; rewrite E in Hi; destruct i; discriminate).
  destruct (theme_of_themes s Hne) as [t0 Ht0].
  set (s' := set_showOptions false (set_themeId (t_id t) s)).
  assert (Hh : handle_event ev s = Some s').
  { destruct Hev as [->|[-> Ho]]; unfold handle_event; rewrite Ht0.
    - rewrite Hopt, Hi. reflexivity.
    - unfold handleKey. rewrite Ht0, Hopt, Ho. unfold js_at.
      replace (0 <=? Z.of_nat i) with true by (symmetry; apply Z.leb_le; lia).
      rewrite Nat2Z.id, Hi. reflexivity. }
  assert (Hr : r = settle 3 s s') by (unfold r, step; rewrite Hh; reflexivity).
  assert (Hc : current_theme s' <> None).
  { destruct (theme_of_themes s') as [t1 E]; [exact Hne|congruence]. }
  destruct (settle_reset 2 s s' Hc) as (A & B & C); [left; simpl; congruence|].
  destruct (settle_keep 3 s s') as (K1 & K2 & K3 & K4 & K5).
  rewrite Hr. repeat split; assumption.
Qed.

(** Booting an entry whose URL is a non-empty string, by a double click on
    it or by Enter while it is selected in the active entry row with the
    modal closed, sets the status to ["Booting <name> ..."] and schedules
    exactly one navigation, to that URL; nothing else changes. *)
Theorem boot_entry_with_url (s : AppState) (i : nat) (e : ConfigEntry) (u : string)
  (ev : UiEvent) :
  nth_error (entries s) i = Some e -> e_url e = Some u -> u <> EmptyString ->
  ev = DblClickEntry i \/
  (ev = Key_ Enter /\ showOptions s = false /\ activeRow s = Entries /\
   selectedIndex s = Some (Z.of_nat i)) ->
  step s ev = schedule_navigation u (set_status ("Booting " ++ e_name e ++ " ...") s) /\
  pending_navigations (step s ev) = (pending_navigations s ++ [u])%list.
Proof.
  intros He Hu Hne Hev.
  assert (Hb : bootEntry e s = schedule_navigation u (set_status ("Booting " ++ e_name e ++ " ...") s)).
  { unfold bootEntry, truthy. rewrite Hu. apply String.eqb_neq in Hne. rewrite Hne. reflexivity. }
  destruct (theme_of_entries s) as [t Ht].
  { assert (Hl : nth_error (entries s) i <> None) by congruence.
    apply nth_error_Some in Hl. lia. }
  assert (Hh : handle_event ev s = Some (bootEntry e s)).
  { destruct Hev as [->|(-> & Ho & Hrow & Hsel)]; unfold handle_event; rewrite Ht.
    - rewrite He. reflexivity.
    - unfold handleKey. rewrite Ht, Ho, Hrow, Hsel. simpl. unfold js_at.
      replace (0 <=? Z.of_nat i) with true by (symmetry; apply Z.leb_le; lia).
      rewrite Nat2Z.id, He. reflexivity. }
  assert (Hs : step s ev = bootEntry e s).
  { unfold step. rewrite Hh. apply settle_same. rewrite Hb.
    change (same_deps s s = true). apply same_deps_refl. }
  rewrite Hs, Hb. split; reflexivity.
Qed.

Lemma next_differs (z n : Z) : 1 < n -> 0 <= z < n -> (z + 1) mod n <> z.
Proof.
  intros Hn Hz E. pose proof (Z.div_mod (z + 1) n ltac:(lia)) as D. rewrite E in D.
  assert (n * ((z + 1) / n) = 1) by lia.
  destruct (Z.le_gt_cases ((z + 1) / n) 0); nia.
Qed.

Lemma prev_differs (z n : Z) : 1 < n -> 0 <= z < n -> (z - 1 + n) mod n <> z.
Proof.
  intros Hn Hz E. pose proof (Z.div_mod (z - 1 + n) n ltac:(lia)) as D. rewrite E in D.
  assert (n * ((z - 1 + n) / n - 1) = -1) by lia.
  destruct (Z.le_gt_cases ((z - 1 + n) / n - 1) (-1)); nia.
Qed.

Lemma js_at_nat {A} (l : list A) (j : Z) :
  0 <= j -> js_at l (Some j) = nth_error l (Z.to_nat j).
Proof. intros H. unfold js_at. replace (0 <=? j) with true by (symmetry; apply Z.leb_le; lia). reflexivity. Qed.

(** With the modal closed, the entry row active and a valid selection among
    at least two entries, ArrowLeft and ArrowRight select the previous or
    next entry cyclically and the status effect then reports it: the new
    state differs from the old one only by that index and the status
    ["Boot <name of the newly selected entry>"]. *)
Theorem arrow_selects_and_reports (s : AppState) (z : Z) (k : Key) :
  let n := Z.of_nat (List.length (entries s)) in
  showOptions s = false -> activeRow s = Entries -> selectedIndex s = Some z ->
  0 <= z < n -> 1 < n -> k = ArrowLeft \/ k = ArrowRight ->
  let j := match k with ArrowLeft => (z - 1 + n) mod n | _ => (z + 1) mod n end in
  exists e, nth_error (entries s) (Z.to_nat j) = Some e /\
    step s (Key_ k) = set_status ("Boot " ++ e_name e) (set_selectedIndex (Some j) s).
Proof.
  intros n Ho Hrow Hsel Hz Hn Hk j.
  assert (Hj : 0 <= j < n /\ j <> z).
  { unfold j. destruct Hk as [->| ->]; simpl; split;
      try (apply Z.mod_pos_bound; lia); [apply prev_differs|apply next_differs]; lia. }
  destruct (nth_error (entries s) (Z.to_nat j)) as [e|] eqn:He.
  2: { apply nth_error_None in He. lia. }
  exists e. split; [reflexivity|].
  destruct (theme_of_entries s) as [t Ht]; [lia|].
  set (s' := set_selectedIndex (Some j) s).
  assert (Hh : handle_event (Key_ k) s = Some s').
  { unfold handle_event, handleKey. rewrite Ht, Ho, Hrow, Hsel.
    unfold s', j. destruct Hk as [->| ->]; simpl; unfold js_len.
    - rewrite prev_index_wrap by lia. reflexivity.
    - rewrite next_index_wrap by lia. reflexivity. }
  assert (Hr : run_effects s s' = set_status ("Boot " ++ e_name e) s').
  { unfold run_effects.
    change (current_theme s') with (current_theme s). change (entries s') with (entries s).
    cbn [themeId themes selectedIndex activeRow s' set_selectedIndex].
    rewrite Ht, Hsel, Hrow, String.eqb_refl, Nat.eqb_refl, js_at_nat, He by lia.
    simpl. replace (z =? j) with false by (symmetry; apply Z.eqb_neq; lia). reflexivity. }
  unfold step. rewrite Hh. change (settle 3 s s') with
    (let r := run_effects s s' in if same_deps s' r then r else settle 2 s' r).
  cbv zeta. rewrite Hr, same_deps_status. reflexivity.
Qed.

(** When the shown theme has no entries and the entry row is active with the
    modal closed, ArrowLeft and ArrowRight set the selected index to [NaN]
    (a remainder by the length 0) and change nothing else, and Enter does
    nothing. *)
Theorem empty_entries_row_keys (s : AppState) (t : Theme) :
  current_theme s = Some t -> t_entries t = [] ->
  showOptions s = false -> activeRow s = Entries ->
  step s (Key_ ArrowLeft) = set_selectedIndex None s /\
  step s (Key_ ArrowRight) = set_selectedIndex None s /\
  step s (Key_ Enter) = s.
Proof.
  intros Ht He Ho Hrow.
  assert (Hent : entries s = []) by (unfold entries; rewrite Ht; exact He).
  assert (Hrem : forall x, js_rem x (js_len (entries s)) = None)
    by (intros [x|]; rewrite Hent; reflexivity).
  assert (Hr : run_effects s (set_selectedIndex None s) = set_selectedIndex None s).
  { unfold run_effects.
    change (current_theme (set_selectedIndex None s)) with (current_theme s).
    change (entries (set_selectedIndex None s)) with (entries s).
    cbn [themeId themes selectedIndex activeRow set_selectedIndex].
    rewrite Ht, Hent, String.eqb_refl, Nat.eqb_refl. simpl. destr_all; reflexivity. }
  assert (Hs : forall k, handle_event (Key_ k) s = Some (set_selectedIndex None s) ->
               step s (Key_ k) = set_selectedIndex None s).
  { intros k Hh. unfold step. rewrite Hh.
    change (settle 3 s (set_selectedIndex None s)) with
      (let r := run_effects s (set_selectedIndex None s) in
       if same_deps (set_selectedIndex None s) r then r
       else settle 2 (set_selectedIndex None s) r).
    cbv zeta. rewrite Hr, same_deps_refl. reflexivity. }
  split; [|split].
  - apply Hs. unfold handle_event, handleKey. rewrite Ht, Ho, Hrow. simpl.
    unfold prev_index. rewrite Hrem. reflexivity.
  - apply Hs. unfold handle_event, handleKey. rewrite Ht, Ho, Hrow. simpl.
    unfold next_index. rewrite Hrem. reflexivity.
  - assert (Hh : handle_event (Key_ Enter) s = Some s).
    { unfold handle_event, handleKey. rewrite Ht, Ho, Hrow. simpl. rewrite Hent.
      replace (js_at [] (selectedIndex s)) with (@None ConfigEntry); [reflexivity|].
      unfold js_at. destruct (selectedIndex s) as [z|]; [|reflexivity].
      destruct (0 <=? z); [destruct (Z.to_nat z)|]; reflexivity. }
    unfold step. rewrite Hh. apply settle_same, same_deps_refl.
Qed.

Lemma picker_indices_in_range_witness :
  Observe.rows_ok (run (loaded (Fetched Observe.sample_config))
                     [Key_ ArrowLeft; Key_ ArrowDown; Key_ ArrowLeft; ClickOverlay]).
Proof.
  apply picker_indices_in_range.
  - vm_compute. discriminate.
  - vm_compute. repeat constructor; intros H; discriminate H.
Defined.

Lemma picker_option_in_range_witness :
  Observe.option_ok (run (loaded (Fetched Observe.sample_config))
                       [ClickAction 1; Key_ ArrowDown; Key_ Enter]).
Proof.
  apply picker_option_in_range. vm_compute. left. reflexivity.
Defined.

Lemma loaded_initial_view_witness :
  selectedIndex (loaded (Fetched Observe.sample_config)) = Some 0 /\
  pending_navigations (loaded (Fetched Observe.sample_config)) = [].
Proof.
  destruct (loaded_initial_view Observe.sample_config ltac:(vm_compute; discriminate))
    as (t & _ & _ & _ & _ & H1 & _ & _ & _ & H2).
  exact (conj H1 H2).
Defined.

Lemma empty_config_stays_loading_witness :
  let d := mkConfig "classic" [] None in
  view (run (loaded (Fetched d)) [Key_ ArrowRight; ClickEntry 0]) = LoadingScreen "Loading...".
Proof.
  intros d. exact (proj1 (proj2 (empty_config_stays_loading d _ eq_refl))).
Defined.

Lemma choose_theme_resets_witness :
  let s := set_showOptions true (loaded (Fetched Observe.sample_config)) in
  themeId (step s (ClickOption 1)) = "clover-BGM" /\
  selectedIndex (step s (ClickOption 1)) = Some 0.
Proof.
  intros s.
  pose proof (choose_theme_resets s 1 (buildCloverTheme "BGM") (ClickOption 1)
    ltac:(vm_compute; reflexivity) ltac:(vm_compute; reflexivity)
    ltac:(intros H; vm_compute in H; discriminate H) (or_introl eq_refl)) as H.
  cbv zeta in H. destruct H as (H1 & _ & H2 & _). exact (conj H1 H2).
Defined.

Lemma boot_entry_with_url_witness :
  pending_navigations (step (loaded (Fetched Observe.sample_config)) (DblClickEntry 0)) =
  ["https://example.org/"].
Proof.
  rewrite (proj2 (boot_entry_with_url (loaded (Fetched Observe.sample_config)) 0
    (mkEntry "hfs" "HFS" "assets/vol_internal_hfs.png" None (Some "https://example.org/"))
    "https://example.org/" (DblClickEntry 0)
    ltac:(vm_compute; reflexivity) eq_refl ltac:(intros H; discriminate H)
    (or_introl eq_refl))).
  vm_compute. reflexivity.
Defined.

Lemma arrow_selects_and_reports_witness :
  let s := loaded (Fetched Observe.sample_config) in
  exists e, step s (Key_ ArrowRight) =
    set_status ("Boot " ++ e_name e) (set_selectedIndex (Some 1) s).
Proof.
  intros s.
  pose proof (arrow_selects_and_reports s 0 ArrowRight
    ltac:(vm_compute; reflexivity) ltac:(vm_compute; reflexivity)
    ltac:(vm_compute; reflexivity) ltac:(vm_compute; split; congruence)
    ltac:(vm_compute; reflexivity) (or_intror eq_refl)) as H.
  cbv zeta in H. destruct H as (e & _ & H). exists e. exact H.
Defined.

Lemma empty_entries_row_keys_witness :
  let ct := mkConfigTheme "empty" "Empty" Builtin "bg.png" None []
              [mkAction "shell" "UEFI Shell" "shell.png"] in
  let s := loaded (Fetched (mkConfig "empty" [ct] None)) in
  step s (Key_ ArrowRight) = set_selectedIndex None s /\ step s (Key_ Enter) = s.
Proof.
  intros ct s.
  destruct (empty_entries_row_keys s (with_style ct) ltac:(vm_compute; reflexivity)
    eq_refl ltac:(vm_compute; reflexivity) ltac:(vm_compute; reflexivity))
    as (_ & H1 & H2).
  exact (conj H1 H2).
Defined.

(** ** Extra properties of the static picker *)

Lemma legacy_lengths (s : Legacy.LState) :
  List.length (Legacy.entries s) = 2%nat /\ List.length (Legacy.actions s) = 6%nat.
Proof.
  unfold Legacy.entries, Legacy.actions, Legacy.theme.
  destruct (Legacy.themeId s); split; reflexivity.
Qed.

Lemma legacy_move_range (x d n : Z) :
  0 < n -> 0 <= x + d + n -> 0 <= Legacy.move x d n < n.
Proof.
  intros Hn H. unfold Legacy.move. rewrite Z.rem_mod_nonneg by lia.
  apply Z.mod_pos_bound. lia.
Qed.

Ltac legacy_proj :=
  cbn [Legacy.outcome_state Legacy.moveEntries Legacy.moveActions Legacy.set_status
       Legacy.set_activeRow Legacy.set_themeId Legacy.set_selectedIndex
       Legacy.set_actionIndex Legacy.selectedIndex Legacy.actionIndex
       Legacy.themeId Legacy.activeRow Legacy.status].

Lemma legacy_handler_range (k : Key) (s : Legacy.LState) :
  0 <= Legacy.selectedIndex s < 2 /\ 0 <= Legacy.actionIndex s < 6 ->
  let r := Legacy.outcome_state (Legacy.handleKey k s) in
  0 <= Legacy.selectedIndex r < 2 /\ 0 <= Legacy.actionIndex r < 6.
Proof.
  intros [Hs Ha]. destruct (legacy_lengths s) as [E A]. unfold Legacy.handleKey.
  destruct k;
    repeat match goal with |- context [match ?x with _ => _ end] => destruct x end;
    legacy_proj; rewrite ?E, ?A; split; try assumption;
    apply legacy_move_range; lia.
Qed.

Lemma legacy_click_range (ev : Legacy.LEvent) (s : Legacy.LState) :
  0 <= Legacy.selectedIndex s < 2 /\ 0 <= Legacy.actionIndex s < 6 ->
  let r := Legacy.handle_click ev s in
  0 <= Legacy.selectedIndex r < 2 /\ 0 <= Legacy.actionIndex r < 6.
Proof.
  intros [Hs Ha]. destruct (legacy_lengths s) as [E A]. unfold Legacy.handle_click.
  destruct ev as [k|i|i|t]; legacy_proj; try (split; assumption).
  - destruct (Nat.ltb i _) eqn:L; legacy_proj; split; try assumption.
    apply Nat.ltb_lt in L. lia.
  - destruct (nth_error (Legacy.actions s) i) eqn:N; legacy_proj; split; try assumption.
    assert (Hl : nth_error (Legacy.actions s) i <> None) by congruence.
    apply nth_error_Some in Hl. lia.
Qed.

Lemma legacy_effects_idx (prev cur : Legacy.LState) :
  let r := Legacy.run_effects prev cur in
  (Legacy.selectedIndex r = Legacy.selectedIndex cur /\
   Legacy.actionIndex r = Legacy.actionIndex cur) \/
  (Legacy.selectedIndex r = 0 /\ Legacy.actionIndex r = 0).
Proof.
  unfold Legacy.run_effects.
  repeat match goal with |- context [match ?x with _ => _ end] => destruct x end;
    legacy_proj; auto.
Qed.

Lemma legacy_settle_idx (n : nat) (prev cur : Legacy.LState) :
  let r := Legacy.settle n prev cur in
  (Legacy.selectedIndex r = Legacy.selectedIndex cur /\
   Legacy.actionIndex r = Legacy.actionIndex cur) \/
  (Legacy.selectedIndex r = 0 /\ Legacy.actionIndex r = 0).
Proof.
  revert prev cur. induction n as [|n IH]; intros prev cur; simpl; [auto|].
  pose proof (legacy_effects_idx prev cur) as H.
  destruct (Legacy.same_deps cur (Legacy.run_effects prev cur)); [exact H|].
  destruct (IH cur (Legacy.run_effects prev cur)) as [(A & B)|Z]; [|right; exact Z].
  destruct H as [(A' & B')|(A' & B')]; [left|right]; split; congruence.
Qed.

Lemma legacy_lstep_range (s : Legacy.LState) (ev : Legacy.LEvent) :
  0 <= Legacy.selectedIndex s < 2 /\ 0 <= Legacy.actionIndex s < 6 ->
  let r := Legacy.lstep s ev in
  0 <= Legacy.selectedIndex r < 2 /\ 0 <= Legacy.actionIndex r < 6.
Proof.
  intros H. unfold Legacy.lstep.
  match goal with |- context [Legacy.settle 3 s ?x] =>
    assert (Hx : 0 <= Legacy.selectedIndex x < 2 /\ 0 <= Legacy.actionIndex x < 6);
    [|destruct (legacy_settle_idx 3 s x) as [(A & B)|(A & B)]; rewrite A, B; lia] end.
  destruct ev; [apply legacy_handler_range, H|apply legacy_click_range, H..].
Qed.

Lemma legacy_lrun_range (l : Legacy.LState) (evs : list Legacy.LEvent) :
  0 <= Legacy.selectedIndex l < 2 /\ 0 <= Legacy.actionIndex l < 6 ->
  let r := Legacy.lrun l evs in
  0 <= Legacy.selectedIndex r < 2 /\ 0 <= Legacy.actionIndex r < 6.
Proof.
  unfold Legacy.lrun. revert l.
  induction evs as [|ev evs IH]; intros l H0; simpl; [exact H0|].
  apply IH, legacy_lstep_range, H0.
Qed.

(** In the static picker, whatever keys and clicks follow the mount, the
    selected entry index stays in [[0, 2)] and the action index in
    [[0, 6)], so the key listener never throws. *)
Theorem legacy_indices_never_throw (evs : list Legacy.LEvent) :
  let s := Legacy.lrun Legacy.linit evs in
  0 <= Legacy.selectedIndex s < 2 /\ 0 <= Legacy.actionIndex s < 6 /\
  forall k, Legacy.threw (Legacy.handleKey k s) = false.
Proof.
  intros s.
  assert (H : 0 <= Legacy.selectedIndex s < 2 /\ 0 <= Legacy.actionIndex s < 6).
  { apply legacy_lrun_range. simpl. lia. }
  destruct H as [Hs Ha]. split; [exact Hs|]. split; [exact Ha|].
  destruct (legacy_lengths s) as [E A].
  assert (He : exists e, Legacy.at_index (Legacy.entries s) (Legacy.selectedIndex s) = Some e).
  { unfold Legacy.at_index. replace (0 <=? Legacy.selectedIndex s) with true
      by (symmetry; apply Z.leb_le; lia).
    destruct (nth_error _ _) eqn:N; [eauto|]. apply nth_error_None in N. lia. }
  assert (Hac : exists a, Legacy.at_index (Legacy.actions s) (Legacy.actionIndex s) = Some a).
  { unfold Legacy.at_index. replace (0 <=? Legacy.actionIndex s) with true
      by (symmetry; apply Z.leb_le; lia).
    destruct (nth_error _ _) eqn:N; [eauto|]. apply nth_error_None in N. lia. }
  destruct He as [e He]. destruct Hac as [a Hac].
  intros k. unfold Legacy.handleKey. rewrite He, Hac.
  destruct k; try reflexivity; destruct (Clover.row_eqb _ _); reflexivity.
Qed.

(** ** Extra properties of the XP boot screens *)

Import XP.

Lemma countdown_fire (users : list User) (s : XState) (id : nat) (m : Z) :
  mounted s = true -> find (fun '(j, _) => Nat.eqb j id) (timers s) = Some (id, TCountdown) ->
  countdown s = m -> 1 < m -> xstep users s (Fire id) = set_countdown (m - 1) s.
Proof.
  intros Hm Hf Hc Hlt. simpl. unfold fire. rewrite Hf, Hm, Hc. simpl.
  replace (m <=? 1) with false by (symmetry; apply Z.leb_gt; lia). reflexivity.
Qed.

Lemma countdown_iter (users : list User) (id k : nat) (s : XState) (m : Z) :
  mounted s = true -> find (fun '(j, _) => Nat.eqb j id) (timers s) = Some (id, TCountdown) ->
  countdown s = m -> Z.of_nat k < m ->
  xrun users s (repeat (Fire id) k) = set_countdown (m - Z.of_nat k) s.
Proof.
  revert s m. induction k as [|k IH]; intros s m Hm Hf Hc Hlt.
  - destruct s; simpl in *. subst. unfold set_countdown. simpl. f_equal. lia.
  - unfold xrun. cbn [repeat fold_left]. rewrite (countdown_fire users s id m Hm Hf Hc) by lia.
    unfold xrun in IH. rewrite (IH _ (m - 1)); [|exact Hm|exact Hf|reflexivity|lia].
    unfold set_countdown. simpl. f_equal. lia.
Qed.

Lemma repeat_snoc {A} (x : A) (n : nat) : repeat x (S n) = (repeat x n ++ [x])%list.
Proof. induction n as [|n IH]; [reflexivity|]. simpl in *. rewrite IH. reflexivity. Qed.

(** In the bootloader with the countdown at [c + 1] and its interval pending
    under [id], the first [c] ticks only count down, to 1, and the next one
    moves to the boot phase with the countdown at 0: the interval is cleared
    (no countdown timer is left) and the boot-animation timeout is pending. *)
Theorem countdown_reaches_boot (users : list User) (s : XState) (id c : nat) :
  mounted s = true -> phase s = Bootloader ->
  find (fun '(j, _) => Nat.eqb j id) (timers s) = Some (id, TCountdown) ->
  countdown s = Z.of_nat (S c) ->
  xrun users s (repeat (Fire id) c) = set_countdown 1 s /\
  let s' := xrun users s (repeat (Fire id) (S c)) in
  phase s' = Boot /\ countdown s' = 0 /\ In (next_id s, TBootTimer) (timers s') /\
  forall j, ~ In (j, TCountdown) (timers s').
Proof.
  intros Hm Hp Hf Hc.
  assert (H1 : xrun users s (repeat (Fire id) c) = set_countdown 1 s).
  { rewrite (countdown_iter users id c s _ Hm Hf Hc) by lia. f_equal. lia. }
  split; [exact H1|]. intros s'.
  assert (Hs' : s' = xstep users (set_countdown 1 s) (Fire id)).
  { unfold s'. rewrite repeat_snoc. unfold xrun. rewrite fold_left_app.
    fold (xrun users s (repeat (Fire id) c)). rewrite H1. reflexivity. }
  rewrite Hs'. simpl. unfold fire. cbn [timers set_countdown mounted countdown].
  rewrite Hf, Hm. simpl. unfold set_phase. cbn [mounted phase set_countdown clear set_timers].
  rewrite Hm, Hp. simpl. split; [reflexivity|]. split; [reflexivity|]. split.
  - apply in_or_app. right. left. reflexivity.
  - intros j Hin. apply in_app_or in Hin. destruct Hin as [Hin|[Hin|[]]]; [|discriminate].
    apply filter_In in Hin. destruct Hin as [_ Hin]. discriminate.
Qed.

Lemma xstep_unmounted (users : list User) (s : XState) (e : XEvent) :
  mounted s = false ->
  let r := xstep users s e in
  phase r = phase s /\ selectedUser r = selectedUser s /\ loggingInUser r = loggingInUser s /\
  bootloaderIndex r = bootloaderIndex s /\ countdown r = countdown s /\ mounted r = false /\
  exists l, outputs r = (outputs s ++ l)%list /\ Forall (fun o => snd o = false) l.
Proof.
  intros Hm. destruct s as [p su lu bi cd m ts ni outs]. simpl in Hm. subst m.
  destruct e as [k|id|i|i| |]; unfold xstep, handleKeyDown, fire, set_phase; simpl;
    repeat match goal with |- context [match ?x with _ => _ end] => destruct x end;
    simpl; repeat split;
    first [ exists []; rewrite app_nil_r; split; [reflexivity|constructor]
          | eexists; split; [reflexivity|repeat constructor] ].
Qed.

(** Once the component is unmounted, no event (key, timer, click, another
    unmount) changes its phase, selection, logging-in user, bootloader index
    or countdown, and it stays unmounted; the only calls still made to its
    props (by a pending login timeout) are recorded as made while unmounted. *)
Theorem unmounted_frozen (users : list User) (s : XState) (es : list XEvent) :
  mounted s = false ->
  let r := xrun users s es in
  phase r = phase s /\ selectedUser r = selectedUser s /\ loggingInUser r = loggingInUser s /\
  bootloaderIndex r = bootloaderIndex s /\ countdown r = countdown s /\ mounted r = false /\
  exists l, outputs r = (outputs s ++ l)%list /\ Forall (fun o => snd o = false) l.
Proof.
  unfold xrun. revert s. induction es as [|e es IH]; intros s Hm; simpl.
  - repeat split; try assumption. exists []. rewrite app_nil_r. split; [reflexivity|constructor].
  - destruct (xstep_unmounted users s e Hm) as (A & B & C & D & E & F & l1 & L1 & P1).
    destruct (IH _ F) as (A' & B' & C' & D' & E' & F' & l2 & L2 & P2).
    repeat split; try congruence.
    exists (l1 ++ l2)%list. rewrite L2, L1, app_assoc. split; [reflexivity|].
    apply Forall_app. split; assumption.
Qed.

Lemma find_index_nodup {A} (f : A -> string) (l : list A) (i : nat) (x : A) (key : string) :
  NoDup (map f l) -> nth_error l i = Some x -> f x = key ->
  find_index (fun v => String.eqb (f v) key) l = Z.of_nat i.
Proof.
  intros Hnd. revert i. induction l as [|y l IH]; intros i Hi Hk; [destruct i; discriminate|].
  simpl in Hnd. inversion Hnd as [|? ? Hnin Hnd']; subst. simpl.
  destruct i as [|i].
  - simpl in Hi. injection Hi as ->. rewrite String.eqb_refl. reflexivity.
  - simpl in Hi. assert (Hne : f y <> f x).
    { intros E. apply Hnin. rewrite E. apply in_map. eapply nth_error_In; eassumption. }
    replace (String.eqb (f y) (f x)) with false by (symmetry; apply String.eqb_neq; exact Hne).
    rewrite (IH Hnd' i Hi eq_refl).
    replace (Z.of_nat i =? -1) with false by (symmetry; apply Z.eqb_neq; lia). lia.
Qed.

(** On the login screen, with user ids unique and the user at position [i]
    selected, ArrowDown selects the next user and ArrowUp the previous one,
    cyclically; nothing else changes. *)
Theorem login_keys_cycle (users : list User) (s : XState) (i : nat) (u v : User) :
  mounted s = true -> phase s = Login -> NoDup (map u_id users) ->
  nth_error users i = Some u -> selectedUser s = Some v -> u_id v = u_id u ->
  let n := List.length users in
  xstep users s (XKey Clover.ArrowDown) =
    set_selectedUser (nth_error users (Nat.modulo (S i) n)) s /\
  xstep users s (XKey Clover.ArrowUp) =
    set_selectedUser (nth_error users (Nat.modulo (i + n - 1) n)) s.
Proof.
  intros Hm Hp Hnd Hi Hs Hid n.
  assert (Hlt : (i < n)%nat) by (apply nth_error_Some; congruence).
  assert (Hfi : find_index (fun w => String.eqb (u_id w) (u_id v)) users = Z.of_nat i)
    by (apply (find_index_nodup u_id users i u); [exact Hnd|exact Hi|symmetry; exact Hid]).
  simpl. unfold handleKeyDown. rewrite Hm, Hp, Hs. simpl. rewrite Hfi. unfold user_at.
  fold n. split.
  - destruct (Z.of_nat i >=? Z.of_nat n - 1) eqn:E.
    + rewrite Z.geb_leb in E. apply Z.leb_le in E. assert (i = n - 1)%nat by lia. subst i.
      replace (S (n - 1)) with n by lia. rewrite Nat.Div0.mod_same. reflexivity.
    + rewrite Z.geb_leb in E. apply Z.leb_gt in E.
      replace (0 <=? Z.of_nat i + 1) with true by (symmetry; apply Z.leb_le; lia).
      rewrite Nat.mod_small by lia. replace (Z.to_nat (Z.of_nat i + 1)) with (S i) by lia.
      reflexivity.
  - destruct (Z.of_nat i <=? 0) eqn:E.
    + apply Z.leb_le in E. assert (i = 0)%nat by lia. subst i.
      replace (0 <=? Z.of_nat n - 1) with true by (symmetry; apply Z.leb_le; lia).
      rewrite Nat.mod_small by lia. replace (Z.to_nat (Z.of_nat n - 1)) with (0 + n - 1)%nat by lia.
      reflexivity.
    + apply Z.leb_gt in E.
      replace (0 <=? Z.of_nat i - 1) with true by (symmetry; apply Z.leb_le; lia).
      replace (i + n - 1)%nat with ((i - 1) + 1 * n)%nat by lia.
      rewrite Nat.Div0.mod_add, Nat.mod_small by lia.
      replace (Z.to_nat (Z.of_nat i - 1)) with (i - 1)%nat by lia. reflexivity.
Qed.

(** On the login screen with no user selected, ArrowDown selects the first
    user and ArrowUp the last one (none when the list is empty). *)
Theorem login_keys_from_none (users : list User) (s : XState) :
  mounted s = true -> phase s = Login -> selectedUser s = None ->
  xstep users s (XKey Clover.ArrowDown) = set_selectedUser (nth_error users 0) s /\
  xstep users s (XKey Clover.ArrowUp) =
    set_selectedUser (nth_error users (List.length users - 1)) s.
Proof.
  intros Hm Hp Hs. simpl. unfold handleKeyDown. rewrite Hm, Hp, Hs. simpl. unfold user_at.
  destruct users as [|w ws]; [split; reflexivity|].
  cbn [List.length]. split.
  - replace (-1 >=? Z.of_nat (S (List.length ws)) - 1) with false
      by (symmetry; rewrite Z.geb_leb; apply Z.leb_gt; lia). reflexivity.
  - replace (0 <=? Z.of_nat (S (List.length ws)) - 1) with true
      by (symmetry; apply Z.leb_le; lia).
    replace (Z.to_nat (Z.of_nat (S (List.length ws)) - 1)) with (S (List.length ws) - 1)%nat
      by lia. reflexivity.
Qed.

Lemma grows_refl (s : XState) : Observe.timers_grow s s.
Proof. split; [lia|]. intros j k H. left. exact H. Qed.

Lemma grows_keep (s s1 s2 : XState) :
  timers s2 = timers s1 -> next_id s2 = next_id s1 ->
  Observe.timers_grow s s1 -> Observe.timers_grow s s2.
Proof. intros T N [H1 H2]. rewrite <- T, <- N in *. split; assumption. Qed.

Lemma grows_filter (f : nat * Timer -> bool) (s s1 s2 : XState) :
  timers s2 = filter f (timers s1) -> next_id s2 = next_id s1 ->
  Observe.timers_grow s s1 -> Observe.timers_grow s s2.
Proof.
  intros T N [H1 H2]. split; [congruence|]. intros j k Hin. rewrite T in Hin.
  apply filter_In in Hin. rewrite N. exact (H2 j k (proj1 Hin)).
Qed.

Lemma grows_schedule (k : Timer) (s s1 : XState) :
  Observe.timers_grow s s1 -> Observe.timers_grow s (schedule k s1).
Proof.
  intros [H1 H2]. split; simpl; [lia|]. intros j k' Hin.
  apply in_app_or in Hin. destruct Hin as [Hin|[Hin|[]]].
  - destruct (H2 j k' Hin); [left; assumption|right; lia].
  - injection Hin as <- _. right. lia.
Qed.

Lemma grows_fold (ks : list Timer) (s s1 : XState) :
  Observe.timers_grow s s1 ->
  Observe.timers_grow s (fold_left (fun acc k => schedule k acc) ks s1).
Proof.
  revert s1. induction ks as [|k ks IH]; intros s1 H; simpl; [exact H|].
  apply IH, grows_schedule, H.
Qed.

Lemma grows_set_phase (p : BootPhase) (s s1 : XState) :
  Observe.timers_grow s s1 -> Observe.timers_grow s (set_phase p s1).
Proof.
  intros H. unfold set_phase. destruct (_ || _); [exact H|].
  apply grows_fold. eapply grows_filter; [reflexivity|reflexivity|exact H].
Qed.

Ltac grow :=
  repeat first
    [ apply grows_schedule | apply grows_set_phase
    | eapply grows_filter; [reflexivity|reflexivity|]
    | apply grows_refl
    | lazymatch goal with
      | |- Observe.timers_grow ?s _ =>
          apply (grows_keep s s); [reflexivity|reflexivity|apply grows_refl]
      end ].

Lemma xstep_grows (users : list User) (s : XState) (e : XEvent) :
  Observe.timers_grow s (xstep users s e).
Proof.
  destruct e as [k|id|i|i| |];
    unfold xstep, handleKeyDown, fire, handleUserClick, handleLogin, clear, emit, unmount;
    repeat match goal with |- context [match ?x with _ => _ end] => destruct x end;
    grow.
Qed.

Lemma reachable_fresh (users : list User) (s : XState) :
  reachable users s -> Observe.ids_fresh s.
Proof.
  induction 1 as [|s e _ IH].
  - intros j k Hin. simpl in Hin. destruct Hin as [E|[E|[E|[]]]]; injection E as <-; simpl; lia.
  - destruct (xstep_grows users s e) as [H1 H2]. intros j k Hin.
    destruct (H2 j k Hin) as [H|H]; [specialize (IH j k H); lia | lia].
Qed.

Lemma find_fresh (l : list (nat * Timer)) (n : nat) (k : Timer) :
  (forall j k', In (j, k') l -> j <> n) ->
  find (fun '(j, _) => Nat.eqb j n) (l ++ [(n, k)])%list = Some (n, k).
Proof.
  induction l as [|[j k'] l IH]; intros H; simpl; [rewrite Nat.eqb_refl; reflexivity|].
  replace (Nat.eqb j n) with false by (symmetry; apply Nat.eqb_neq; apply (H j k'); left; reflexivity).
  apply IH. intros j' k'' Hin. apply (H j' k''). right. exact Hin.
Qed.

Lemma click_login_eq (users : list User) (s : XState) (i : nat) (u v : User) :
  mounted s = true -> phase s = Login \/ phase s = LoggingIn ->
  nth_error users i = Some u -> selectedUser s = Some v -> u_id v = u_id u ->
  xstep users s (ClickUser i) = handleLogin u s.
Proof.
  intros Hm Hp Hi Hs Hid. simpl. rewrite Hm.
  replace (phase_eqb (phase s) Login || phase_eqb (phase s) LoggingIn) with true
    by (destruct Hp as [-> | ->]; reflexivity).
  simpl. rewrite Hi. unfold handleUserClick. rewrite Hs, Hid, String.eqb_refl. reflexivity.
Qed.

(** On the login screen, a click on the user who is already selected logs
    in: the phase becomes [logging-in] with that user, and a login timeout is
    pending; when it fires, the phase becomes [desktop] and [onLogin] is
    called once with that user, while the component is mounted. *)
Theorem click_selected_user_logs_in (users : list User) (s : XState) (i : nat) (u v : User) :
  reachable users s -> mounted s = true -> phase s = Login ->
  nth_error users i = Some u -> selectedUser s = Some v -> u_id v = u_id u ->
  let s1 := xstep users s (ClickUser i) in
  let s2 := xstep users s1 (Fire (next_id s)) in
  phase s1 = LoggingIn /\ loggingInUser s1 = Some u /\
  In (next_id s, TLoginTimer u) (timers s1) /\
  phase s2 = Desktop /\ outputs s2 = (outputs s ++ [(OnLogin u, true)])%list.
Proof.
  intros Hr Hm Hp Hi Hs Hid s1 s2.
  pose proof (reachable_fresh users s Hr) as F.
  assert (E1 : s1 = handleLogin u s) by (apply (click_login_eq users s i u v); auto).
  unfold s2. rewrite E1. clear s1 s2 E1.
  destruct s as [p su lu bi cd m ts ni outs]. simpl in *. subst p m.
  unfold handleLogin, set_phase. simpl. repeat split.
  - apply in_or_app. right. left. reflexivity.
  - unfold fire. simpl. rewrite find_fresh; [reflexivity|].
    intros j k Hin. apply filter_In in Hin. specialize (F j k (proj1 Hin)). simpl in F. lia.
  - unfold fire. simpl. rewrite find_fresh; [reflexivity|].
    intros j k Hin. apply filter_In in Hin. specialize (F j k (proj1 Hin)). simpl in F. lia.
Qed.

Lemma find_first (l : list (nat * Timer)) (id : nat) (k : Timer) :
  In (id, k) l -> (forall k', In (id, k') l -> k' = k) ->
  find (fun '(j, _) => Nat.eqb j id) l = Some (id, k).
Proof.
  induction l as [|[j k0] l IH]; intros Hin Hu; [destruct Hin|]. simpl.
  destruct (Nat.eqb j id) eqn:E.
  - apply Nat.eqb_eq in E. subst j. rewrite (Hu k0 (or_introl eq_refl)). reflexivity.
  - destruct Hin as [Hin|Hin]; [injection Hin as -> _; rewrite Nat.eqb_refl in E; discriminate|].
    apply IH; [exact Hin|]. intros k' H. apply Hu. right. exact H.
Qed.

Lemma fire_login (s : XState) (id : nat) (u : User) :
  mounted s = true -> In (id, TLoginTimer u) (timers s) ->
  (forall k, In (id, k) (timers s) -> k = TLoginTimer u) ->
  let r := fire id s in
  phase r = Desktop /\ mounted r = true /\
  outputs r = (outputs s ++ [(OnLogin u, true)])%list /\
  (forall j k, In (j, k) (timers r) -> In (j, k) (timers s)) /\
  (forall j w, In (j, TLoginTimer w) (timers s) -> j <> id -> In (j, TLoginTimer w) (timers r)).
Proof.
  intros Hm Hin Hu r. unfold r, fire. rewrite (find_first _ _ _ Hin Hu).
  unfold set_phase, emit. cbn [mounted clear set_timers phase].
  rewrite Hm. destruct (phase_eqb Desktop (phase s)) eqn:Hp; simpl.
  - split; [symmetry; apply phase_eqb_true, Hp|].
    repeat split; try exact Hm; try (rewrite Hm; reflexivity).
    + intros j k H. apply filter_In in H. exact (proj1 H).
    + intros j w H Hj. apply filter_In. split; [exact H|].
      apply negb_true_iff, Nat.eqb_neq, Hj.
  - repeat split; try exact Hm; try (rewrite Hm; reflexivity).
    + intros j k H. apply filter_In in H. destruct H as [H _].
      apply filter_In in H. exact (proj1 H).
    + intros j w H Hj. apply filter_In. split; [|reflexivity].
      apply filter_In. split; [exact H|]. apply negb_true_iff, Nat.eqb_neq, Hj.
Qed.

(** While the login is in progress, the user tiles are still shown, and a
    further click on the selected user starts another login: from the login
    screen, two clicks on the selected user schedule two login timeouts, and
    when both have fired, [onLogin] has been called twice with that user and
    the phase is [desktop]. *)
Theorem double_click_logs_in_twice (users : list User) (s : XState) (i : nat) (u v : User) :
  reachable users s -> mounted s = true -> phase s = Login ->
  nth_error users i = Some u -> selectedUser s = Some v -> u_id v = u_id u ->
  let r := xrun users s [ClickUser i; ClickUser i; Fire (next_id s); Fire (S (next_id s))] in
  phase r = Desktop /\
  outputs r = (outputs s ++ [(OnLogin u, true); (OnLogin u, true)])%list.
Proof.
  intros Hr Hm Hp Hi Hs Hid r.
  pose proof (reachable_fresh users s Hr) as F.
  assert (E1 : xstep users s (ClickUser i) = handleLogin u s)
    by (apply (click_login_eq users s i u v); auto).
  set (n := next_id s) in *.
  set (s1 := handleLogin u s) in *.
  assert (H1 : phase s1 = LoggingIn /\ mounted s1 = true /\ selectedUser s1 = Some v /\
               outputs s1 = outputs s /\ next_id s1 = S n /\
               timers s1 = (filter (fun '(_, k) => negb (effect_timer k)) (timers s)
                            ++ [(n, TLoginTimer u)])%list).
  { unfold s1, handleLogin, set_phase. cbn [mounted phase set_loggingInUser].
    rewrite Hm, Hp. simpl. repeat split; assumption. }
  destruct H1 as (P1 & M1 & S1 & O1 & N1 & T1). clearbody s1.
  assert (E2 : xstep users s1 (ClickUser i) =
                schedule (TLoginTimer u) (set_loggingInUser (Some u) s1)).
  { rewrite (click_login_eq users s1 i u v M1 (or_intror P1) Hi S1 Hid).
    unfold handleLogin, set_phase. cbn [mounted phase set_loggingInUser].
    rewrite M1, P1. reflexivity. }
  set (s2 := schedule (TLoginTimer u) (set_loggingInUser (Some u) s1)) in *.
  assert (T2 : forall j k, In (j, k) (timers s2) ->
                 (j < n)%nat \/ (j, k) = (n, TLoginTimer u) \/ (j, k) = (S n, TLoginTimer u)).
  { intros j k H. unfold s2, schedule in H. cbn [timers next_id set_loggingInUser] in H. rewrite T1, N1 in H.
    apply in_app_or in H. destruct H as [H|[H|[]]]; [|auto].
    apply in_app_or in H. destruct H as [H|[H|[]]]; [|auto].
    apply filter_In in H. left. exact (F j k (proj1 H)). }
  assert (In2 : forall m, m = n \/ m = S n -> In (m, TLoginTimer u) (timers s2)).
  { intros m Hm'. unfold s2, schedule. cbn [timers next_id set_loggingInUser]. rewrite T1, N1.
    destruct Hm' as [-> | ->]; apply in_or_app; [left; apply in_or_app; right|right]; left;
      reflexivity. }
  destruct (fire_login s2 n u) as (P3 & M3 & O3 & Sub3 & Keep3).
  - exact M1.
  - apply In2. left. reflexivity.
  - intros k H. destruct (T2 _ _ H) as [L|[L|L]]; [lia|congruence|injection L; lia].
  - destruct (fire_login (fire n s2) (S n) u) as (P4 & M4 & O4 & _).
    + exact M3.
    + apply Keep3; [apply In2; right; reflexivity|lia].
    + intros k H. destruct (T2 _ _ (Sub3 _ _ H)) as [L|[L|L]]; [lia|injection L; lia|congruence].
    + assert (Er : r = fire (S n) (fire n s2)).
      { unfold r, xrun. simpl. fold (xstep users s (ClickUser i)). rewrite E1.
        fold (xstep users s1 (ClickUser i)). rewrite E2. reflexivity. }
      rewrite Er. split; [exact P4|].
      rewrite O4, O3. unfold s2, schedule. cbn [outputs set_loggingInUser]. rewrite O1, <- app_assoc.
      reflexivity.
Qed.

(** In every state reachable from the mount, each pending timer created by a
    phase effect is one of the timers of the current phase, and the
    component is mounted; so no POST, countdown or boot-animation timer is
    left pending once its phase is over, or after the unmount. *)
Theorem reachable_timers_match_phase (users : list User) (s : XState) :
  reachable users s ->
  forall id k, In (id, k) (timers s) -> effect_timer k = true ->
  mounted s = true /\ In k (phase_timers (phase s)).
Proof. intros H. exact (reachable_inv users s H). Qed.

Lemma schedule_fold_rest (ks : list Timer) (x : XState) :
  let r := fold_left (fun acc k => schedule k acc) ks x in
  bootloaderIndex r = bootloaderIndex x /\ countdown r = countdown x /\
  selectedUser r = selectedUser x /\ outputs r = outputs x.
Proof.
  revert x. induction ks as [|k ks IH]; intros x; simpl; [repeat split|].
  destruct (IH (schedule k x)) as (A & B & C & D). rewrite A, B, C, D. repeat split.
Qed.

Lemma set_phase_fields (p : BootPhase) (s : XState) :
  let r := set_phase p s in
  bootloaderIndex r = bootloaderIndex s /\ countdown r = countdown s /\
  selectedUser r = selectedUser s /\ outputs r = outputs s.
Proof.
  unfold set_phase. destruct (_ || _); [repeat split|].
  destruct (schedule_fold_rest (phase_timers p)
    (set_phase_raw p (set_timers (filter (fun '(_, k) => negb (effect_timer k)) (timers s)) s)))
    as (A & B & C & D).
  rewrite A, B, C, D. repeat split.
Qed.

(** In every state reachable from the mount, the bootloader selection is one
    of the three boot options. *)
Theorem bootloader_index_in_range (users : list User) (s : XState) :
  reachable users s -> 0 <= bootloaderIndex s < Z.of_nat (List.length bootOptions).
Proof.
  induction 1 as [|s e _ IH]; [simpl; lia|]. simpl in *.
  destruct e as [k|id|i|i| |];
    unfold xstep, handleKeyDown, fire, handleUserClick, handleLogin, emit, unmount, clear;
    repeat match goal with |- context [match ?x with _ => _ end] => destruct x eqn:? end;
    cbn [bootloaderIndex schedule set_timers set_countdown set_selectedUser
         set_loggingInUser set_bootloaderIndex];
    rewrite ?(proj1 (set_phase_fields _ _));
    cbn [bootloaderIndex set_loggingInUser set_countdown set_bootloaderIndex]; try exact IH.
  all: try (change (Z.of_nat (List.length bootOptions)) with 3;
            rewrite Z.rem_mod_nonneg by lia; apply Z.mod_pos_bound; lia).
  all: match goal with H : (_ && _ && Nat.ltb _ _) = true |- _ =>
         apply andb_true_iff in H; destruct H as [_ L]; apply Nat.ltb_lt in L; simpl in L; lia
       end.
Qed.

(** Choosing a boot option in the bootloader, by a click or by Enter, moves
    to the boot phase: the countdown interval is cleared (no countdown timer
    is left, so the countdown stops where it was) and the boot-animation
    timeout is pending; a click also selects the clicked option. *)
Theorem boot_option_stops_countdown (users : list User) (s : XState) (ev : XEvent) (i : nat) :
  mounted s = true -> phase s = Bootloader ->
  (ev = ClickBootOption i /\ (i < List.length bootOptions)%nat) \/ ev = XKey Clover.Enter ->
  let r := xstep users s ev in
  phase r = Boot /\ countdown r = countdown s /\
  In (next_id s, TBootTimer) (timers r) /\ (forall j, ~ In (j, TCountdown) (timers r)) /\
  (ev = ClickBootOption i -> bootloaderIndex r = Z.of_nat i).
Proof.
  intros Hm Hp Hev r.
  assert (Hr : exists b, r = set_phase Boot (set_bootloaderIndex b s) /\
                          (ev = ClickBootOption i -> b = Z.of_nat i)).
  { destruct Hev as [[-> Hi]| ->]; unfold r; simpl.
    - rewrite Hm, Hp. apply Nat.ltb_lt in Hi. simpl in Hi |- *. rewrite Hi.
      exists (Z.of_nat i). split; reflexivity.
    - unfold handleKeyDown. rewrite Hm, Hp. simpl. exists (bootloaderIndex s).
      split; [destruct s; reflexivity|discriminate]. }
  destruct Hr as (b & -> & Hb). unfold set_phase. cbn [mounted phase set_bootloaderIndex].
  rewrite Hm, Hp. simpl. split; [reflexivity|]. split; [reflexivity|]. split; [|split].
  - apply in_or_app. right. left. reflexivity.
  - intros j Hin. apply in_app_or in Hin. destruct Hin as [Hin|[Hin|[]]]; [|discriminate].
    apply filter_In in Hin. destruct Hin as [_ Hin]. discriminate.
  - exact Hb.
Qed.

Lemma legacy_entries_congr (a b : Legacy.LState) :
  Legacy.themeId a = Legacy.themeId b -> Legacy.entries a = Legacy.entries b.
Proof. intros H. unfold Legacy.entries, Legacy.theme. rewrite H. reflexivity. Qed.

Lemma legacy_themeId_eqb_refl (t : Legacy.ThemeId) : Legacy.themeId_eqb t t = true.
Proof. destruct t; reflexivity. Qed.

Lemma legacy_themeId_eqb_neq (a b : Legacy.ThemeId) : a <> b -> Legacy.themeId_eqb a b = false.
Proof. destruct a, b; simpl; congruence. Qed.

Lemma legacy_first_entry (s : Legacy.LState) :
  exists e, nth_error (Legacy.entries s) 0 = Some e.
Proof.
  destruct (legacy_lengths s) as [E _].
  destruct (Legacy.entries s) as [|e l]; [discriminate|]. exists e. reflexivity.
Qed.

Lemma legacy_same_deps_status (x : string) (s : Legacy.LState) :
  Legacy.same_deps s (Legacy.set_status x s) = true.
Proof.
  unfold Legacy.same_deps. cbn [Legacy.set_status Legacy.themeId Legacy.selectedIndex
    Legacy.activeRow].
  rewrite legacy_themeId_eqb_refl, Z.eqb_refl. destruct (Legacy.activeRow s); reflexivity.
Qed.

(** In the static picker, a click on a theme other than the current one
    makes it current and resets the selection: both indices become 0, the
    entry row is active, and the status reads ["Boot <first entry of the new
    theme>"]. *)
Theorem legacy_theme_click_resets (s : Legacy.LState) (t : Legacy.ThemeId) :
  t <> Legacy.themeId s ->
  let r := Legacy.lstep s (Legacy.LClickTheme t) in
  Legacy.themeId r = t /\ Legacy.selectedIndex r = 0 /\ Legacy.actionIndex r = 0 /\
  Legacy.activeRow r = Clover.Entries /\
  exists e, nth_error (Legacy.entries r) 0 = Some e /\
    Legacy.status r = ("Boot " ++ Legacy.e_name e)%string.
Proof.
  intros Ht r.
  set (s' := Legacy.set_themeId t s).
  destruct (legacy_first_entry s') as [e0 E0].
  assert (Hr : r = Legacy.settle 3 s s') by reflexivity.
  set (r1 := Legacy.run_effects s s').
  assert (R1 : Legacy.themeId r1 = t /\ Legacy.selectedIndex r1 = 0 /\
               Legacy.actionIndex r1 = 0 /\ Legacy.activeRow r1 = Clover.Entries /\
               (Legacy.selectedIndex s = 0 -> Legacy.activeRow s = Clover.Entries ->
                Legacy.status r1 = ("Boot " ++ Legacy.e_name e0)%string)).
  { unfold r1, Legacy.run_effects.
    replace (Legacy.themeId_eqb (Legacy.themeId s) (Legacy.themeId s')) with false
      by (symmetry; apply legacy_themeId_eqb_neq; simpl; congruence).
    rewrite E0. cbn [negb orb].
    assert (X : exists x, match Legacy.at_index (Legacy.entries s') (Legacy.selectedIndex s') with
              | Some e => Some e | None => Some e0 end = Some x /\
              (Legacy.selectedIndex s = 0 -> x = e0)).
    { unfold Legacy.at_index. cbn [s' Legacy.set_themeId Legacy.selectedIndex].
      destruct (0 <=? Legacy.selectedIndex s) eqn:N.
      2:{ exists e0. split; reflexivity. }
      - destruct (nth_error (Legacy.entries s') (Z.to_nat (Legacy.selectedIndex s))) as [x|] eqn:Y.
        + exists x. split; [reflexivity|]. intros H0. rewrite H0 in Y. change (Z.to_nat 0) with 0%nat in Y. congruence.
        + exists e0. split; reflexivity. }
    destruct X as (x & X & Hx). rewrite Bool.orb_true_r, X.
    cbn [s' Legacy.set_status Legacy.set_activeRow Legacy.set_actionIndex Legacy.set_selectedIndex
         Legacy.set_themeId Legacy.themeId Legacy.selectedIndex Legacy.actionIndex
         Legacy.activeRow Legacy.status].
    destruct (Clover.row_eqb (Legacy.activeRow s) Clover.Entries) eqn:Rw;
      cbn [Legacy.set_status Legacy.themeId Legacy.selectedIndex Legacy.actionIndex
           Legacy.activeRow Legacy.status]; repeat split; intros Hs Hrow.
    all: first [rewrite (Hx Hs); reflexivity | rewrite Hrow in Rw; discriminate]. }
  destruct R1 as (T1 & S1 & A1 & W1 & St1).
  rewrite Hr. change (Legacy.settle 3 s s') with
    (if Legacy.same_deps s' r1 then r1 else Legacy.settle 2 s' r1).
  destruct (Legacy.same_deps s' r1) eqn:D.
  - unfold Legacy.same_deps in D. rewrite S1, W1 in D.
    apply andb_true_iff in D. destruct D as [D Rw]. apply andb_true_iff in D.
    destruct D as [_ Sl]. apply Z.eqb_eq in Sl.
    assert (Rw' : Legacy.activeRow s = Clover.Entries)
      by (revert Rw; unfold s'; simpl; destruct (Legacy.activeRow s); simpl; congruence).
    repeat split; try assumption. exists e0. split.
    + rewrite (legacy_entries_congr r1 s') by (rewrite T1; reflexivity). exact E0.
    + apply St1; [exact Sl|exact Rw'].
  - assert (R2 : Legacy.run_effects s' r1 =
                 Legacy.set_status ("Boot " ++ Legacy.e_name e0)%string r1).
    { unfold Legacy.run_effects.
      replace (Legacy.themeId_eqb (Legacy.themeId s') (Legacy.themeId r1)) with true
        by (rewrite T1; symmetry; apply legacy_themeId_eqb_refl).
      assert (Hu : negb (Legacy.selectedIndex s' =? Legacy.selectedIndex r1)
                   || negb (Clover.row_eqb (Legacy.activeRow s') (Legacy.activeRow r1))
                   || negb true = true).
      { unfold Legacy.same_deps in D.
        replace (Legacy.themeId_eqb (Legacy.themeId s') (Legacy.themeId r1)) with true in D
          by (rewrite T1; symmetry; apply legacy_themeId_eqb_refl).
        destruct (Legacy.selectedIndex s' =? Legacy.selectedIndex r1);
          destruct (Clover.row_eqb (Legacy.activeRow s') (Legacy.activeRow r1));
          simpl in *; congruence. }
      rewrite Hu.
      rewrite (legacy_entries_congr r1 s') by (rewrite T1; reflexivity).
      rewrite S1, W1. unfold Legacy.at_index. change (0 <=? 0) with true.
      change (Z.to_nat 0) with 0%nat. rewrite E0. cbn [negb Clover.row_eqb]. reflexivity. }
    change (Legacy.settle 2 s' r1) with
      (let r2 := Legacy.run_effects s' r1 in
       if Legacy.same_deps r1 r2 then r2 else Legacy.settle 1 r1 r2).
    cbv zeta. rewrite R2, legacy_same_deps_status.
    cbn [Legacy.set_status Legacy.themeId Legacy.selectedIndex Legacy.actionIndex
         Legacy.activeRow Legacy.status].
    repeat split; try assumption. exists e0. split; [|reflexivity].
    rewrite (legacy_entries_congr _ s') by (simpl; rewrite T1; reflexivity). exact E0.
Qed.

Lemma legacy_theme_click_resets_witness :
  let r := Legacy.lstep Legacy.linit (Legacy.LClickTheme Legacy.ModernDark) in
  Legacy.themeId r = Legacy.ModernDark /\ Legacy.selectedIndex r = 0.
Proof.
  pose proof (legacy_theme_click_resets Legacy.linit Legacy.ModernDark
                ltac:(intros H; discriminate H)) as H.
  cbv zeta in H. destruct H as (H1 & H2 & _). exact (conj H1 H2).
Defined.

Lemma countdown_reaches_boot_witness :
  let s := xrun defaultUsers xinit [Fire 2] in
  phase (xrun defaultUsers s (repeat (Fire 3) 5)) = Boot.
Proof.
  intros s.
  pose proof (countdown_reaches_boot defaultUsers s 3 4
    ltac:(vm_compute; reflexivity) ltac:(vm_compute; reflexivity)
    ltac:(vm_compute; reflexivity) ltac:(vm_compute; reflexivity)) as H.
  cbv zeta in H. exact (proj1 (proj2 H)).
Defined.

Lemma unmounted_frozen_witness :
  let s := xrun defaultUsers xinit [Unmount] in
  phase (xrun defaultUsers s [Fire 2; XKey Enter; ClickExit]) = Post.
Proof.
  intros s. exact (proj1 (unmounted_frozen defaultUsers s _ eq_refl)).
Defined.

Lemma login_keys_cycle_witness :
  let s := xrun defaultUsers xinit [Fire 2; XKey Enter; Fire 4; ClickUser 0] in
  xstep defaultUsers s (XKey ArrowDown) = set_selectedUser (nth_error defaultUsers 1) s.
Proof.
  intros s.
  exact (proj1 (login_keys_cycle defaultUsers s 0
    (mkUser "1" "Administrator" "xp/images/user/astronaut.png")
    (mkUser "1" "Administrator" "xp/images/user/astronaut.png")
    ltac:(vm_compute; reflexivity) ltac:(vm_compute; reflexivity)
    ltac:(repeat constructor; simpl; intuition discriminate)
    eq_refl ltac:(vm_compute; reflexivity) eq_refl)).
Defined.

Lemma login_keys_from_none_witness :
  let s := xrun defaultUsers xinit [Fire 2; XKey Enter; Fire 4] in
  xstep defaultUsers s (XKey ArrowUp) = set_selectedUser (nth_error defaultUsers 1) s.
Proof.
  intros s.
  exact (proj2 (login_keys_from_none defaultUsers s
    ltac:(vm_compute; reflexivity) ltac:(vm_compute; reflexivity)
    ltac:(vm_compute; reflexivity))).
Defined.

Lemma click_selected_user_logs_in_witness :
  let s := xrun defaultUsers xinit [Fire 2; XKey Enter; Fire 4; ClickUser 0] in
  phase (xstep defaultUsers (xstep defaultUsers s (ClickUser 0)) (Fire 5)) = Desktop.
Proof.
  intros s.
  pose proof (click_selected_user_logs_in defaultUsers s 0
    (mkUser "1" "Administrator" "xp/images/user/astronaut.png")
    (mkUser "1" "Administrator" "xp/images/user/astronaut.png")
    (reachable_run _ _ _ (reach_init defaultUsers))
    ltac:(vm_compute; reflexivity) ltac:(vm_compute; reflexivity)
    eq_refl ltac:(vm_compute; reflexivity) eq_refl) as H.
  cbv zeta in H. exact (proj1 (proj2 (proj2 (proj2 H)))).
Defined.

Lemma double_click_logs_in_twice_witness :
  let s := xrun defaultUsers xinit [Fire 2; XKey Enter; Fire 4; ClickUser 0] in
  let admin := mkUser "1" "Administrator" "xp/images/user/astronaut.png" in
  outputs (xrun defaultUsers s [ClickUser 0; ClickUser 0; Fire 5; Fire 6]) =
  [(OnLogin admin, true); (OnLogin admin, true)].
Proof.
  intros s admin.
  pose proof (double_click_logs_in_twice defaultUsers s 0 admin admin
    (reachable_run _ _ _ (reach_init defaultUsers))
    ltac:(vm_compute; reflexivity) ltac:(vm_compute; reflexivity)
    eq_refl ltac:(vm_compute; reflexivity) eq_refl) as H.
  cbv zeta in H. exact (proj2 H).
Defined.

Lemma reachable_timers_match_phase_witness :
  let s := xrun defaultUsers xinit [Fire 2] in
  mounted s = true /\ In TCountdown (phase_timers (phase s)).
Proof.
  intros s.
  apply (reachable_timers_match_phase defaultUsers s
           (reachable_run _ _ _ (reach_init defaultUsers)) 3 TCountdown).
  - vm_compute. left. reflexivity.
  - reflexivity.
Defined.

Lemma bootloader_index_in_range_witness :
  let s := xrun defaultUsers xinit [Fire 2; XKey ArrowUp; XKey ArrowUp] in
  0 <= bootloaderIndex s < 3.
Proof.
  intros s.
  exact (bootloader_index_in_range defaultUsers s
           (reachable_run _ _ _ (reach_init defaultUsers))).
Defined.

Lemma boot_option_stops_countdown_witness :
  let s := xrun defaultUsers xinit [Fire 2] in
  phase (xstep defaultUsers s (ClickBootOption 1)) = Boot /\
  bootloaderIndex (xstep defaultUsers s (ClickBootOption 1)) = 1.
Proof.
  intros s.
  pose proof (boot_option_stops_countdown defaultUsers s (ClickBootOption 1) 1
    ltac:(vm_compute; reflexivity) ltac:(vm_compute; reflexivity)
    (or_introl (conj eq_refl (ltac:(simpl; lia) : (1 < List.length bootOptions)%nat)))) as H.
  cbv zeta in H. destruct H as (H1 & _ & _ & _ & H5).
  exact (conj H1 (H5 eq_refl)).
Defined.
